(** * CloudProfile: a shallow embedding of [app.py]

    The Flask application of [app.py] is modelled as handlers in a small
    state-and-exception monad over a world made of the [users] table, the
    session dictionary, the pending flash messages and the upload directory.
    Python strings are sequences of Unicode code points, file contents are
    byte sequences, and the functions of Flask, Werkzeug and the Unicode
    tables on which the program relies are taken as parameters. *)

From Stdlib Require Import ZArith NArith QArith Floats Ascii String List.
From Stdlib Require Strings.Byte.
From stdpp Require Import gmap strings list pretty.

Local Open Scope N_scope.

(** ** Python strings *)

(** A [str] is a sequence of code points. *)
Abbreviation pystr := (list N).

(** The code points of a literal of the source text. *)
Definition of_string (s : string) : pystr :=
  map N_of_ascii (list_ascii_of_string s).

Definition in_range (lo hi c : N) : bool := (lo <=? c) && (c <=? hi).

(** [str.isspace] on one character: the code points CPython lists as
    whitespace, which are also the separators of [str.split()] and the
    characters [str.strip()] removes. *)
Definition isspace (c : N) : bool :=
  in_range 0x09 0x0D c || in_range 0x1C 0x1F c || (c =? 0x20) ||
  (c =? 0x85) || (c =? 0xA0) || (c =? 0x1680) || in_range 0x2000 0x200A c ||
  (c =? 0x2028) || (c =? 0x2029) || (c =? 0x202F) || (c =? 0x205F) ||
  (c =? 0x3000).

(** Truthiness of a [str]: the empty string is false. *)
Definition truthy (s : pystr) : bool :=
  match s with [] => false | _ :: _ => true end.

Fixpoint lstrip (s : pystr) : pystr :=
  match s with
  | c :: s' => if isspace c then lstrip s' else s
  | [] => []
  end.

Definition rstrip (s : pystr) : pystr := rev (lstrip (rev s)).

(** [s.strip()] *)
Definition strip (s : pystr) : pystr := rstrip (lstrip s).

(** [s.split()]: the scan of CPython's whitespace split.  [cur] holds, in
    reverse, the characters of the word being read. *)
Fixpoint split_from (cur : pystr) (s : pystr) : list pystr :=
  match s with
  | [] => if truthy cur then [rev cur] else []
  | c :: s' =>
      if isspace c
      then (if truthy cur then rev cur :: split_from [] s' else split_from [] s')
      else split_from (c :: cur) s'
  end.

Definition split (s : pystr) : list pystr := split_from [] s.

(** [count_words(text)] *)
Definition count_words (text : pystr) : nat :=
  length (filter (fun word => truthy (strip word) = true) (split text)).

(** *** The count as the specification words it

    Cutting the text at every maximal run of whitespace yields the pieces
    between the runs, among them an empty piece before a leading run and
    after a trailing one; the count is the number of non-empty pieces. *)
Fixpoint pieces_from (cur : pystr) (in_run : bool) (s : pystr) : list pystr :=
  match s with
  | [] => [rev cur]
  | c :: s' =>
      if isspace c
      then (if in_run then pieces_from [] true s'
            else rev cur :: pieces_from [] true s')
      else pieces_from (c :: cur) false s'
  end.

Definition pieces_between_runs (s : pystr) : list pystr :=
  pieces_from [] false s.

Definition nonempty_tokens (s : pystr) : nat :=
  length (filter (fun piece => truthy piece = true) (pieces_between_runs s)).

(** ** Case folding and file names *)

(** [str.lower] on the ASCII letters. *)
Definition ascii_lower (c : N) : N :=
  if in_range 65 90 c then c + 32 else c.

Definition is_ascii (s : pystr) : bool := forallb (fun c => c <? 128) s.

(** [sep in s] for a one-character [sep]. *)
Definition contains (sep : N) (s : pystr) : bool := existsb (N.eqb sep) s.

(** The cut of [s] at the last occurrence of [sep], if there is one. *)
Fixpoint cut_last (sep : N) (s : pystr) : option (pystr * pystr) :=
  match s with
  | [] => None
  | c :: s' =>
      match cut_last sep s' with
      | Some (before, after) => Some (c :: before, after)
      | None => if c =? sep then Some ([], s') else None
      end
  end.

(** [s.rsplit(sep, 1)] *)
Definition rsplit1 (sep : N) (s : pystr) : list pystr :=
  match cut_last sep s with
  | Some (before, after) => [before; after]
  | None => [s]
  end.

Definition dot : N := 46.
Definition slash : N := 47.

(** [ALLOWED_EXTENSIONS = {"txt"}] *)
Definition ALLOWED_EXTENSIONS : gset pystr := {[ of_string "txt" ]}.

(** ** Exceptions *)

Inductive exn := IntegrityError | OSError | UnicodeDecodeError.

Inductive result (A : Type) :=
  | Ok (a : A)
  | Raised (e : exn).
Arguments Ok {A} a.
Arguments Raised {A} e.

#[global] Instance exn_eq_dec : EqDecision exn.
Proof. solve_decision. Defined.

(** ** Reading a text file: UTF-8 with an error handler *)

Inductive errors := strict | ignore.

(** What the first byte of a sequence announces: an ASCII character, or a
    lead byte with the number of continuation bytes to come, the bits it
    carries and the range allowed for the next byte (which excludes overlong
    forms, surrogates and code points above U+10FFFF). *)
Inductive lead :=
  | Single (c : N)
  | Lead (need : nat) (acc lo hi : N)
  | Invalid.

Definition utf8_lead (b : N) : lead :=
  if b <? 0x80 then Single b
  else if in_range 0xC2 0xDF b then Lead 1 (N.land b 0x1F) 0x80 0xBF
  else if b =? 0xE0 then Lead 2 (N.land b 0x0F) 0xA0 0xBF
  else if b =? 0xED then Lead 2 (N.land b 0x0F) 0x80 0x9F
  else if in_range 0xE1 0xEF b then Lead 2 (N.land b 0x0F) 0x80 0xBF
  else if b =? 0xF0 then Lead 3 (N.land b 0x07) 0x90 0xBF
  else if b =? 0xF4 then Lead 3 (N.land b 0x07) 0x80 0x8F
  else if in_range 0xF1 0xF3 b then Lead 3 (N.land b 0x07) 0x80 0xBF
  else Invalid.

(** A sequence under way. *)
Record pending := { need : nat; acc : N; lo : N; hi : N }.

(** The handler's part: [strict] raises, [ignore] drops the offending bytes
    and goes on. *)
Definition on_error (h : errors) (k : result pystr) : result pystr :=
  match h with
  | strict => Raised UnicodeDecodeError
  | ignore => k
  end.

Definition emit (c : N) (k : result pystr) : result pystr :=
  match k with
  | Ok s => Ok (c :: s)
  | Raised e => Raised e
  end.

(** A byte read as the start of a sequence; [rest] decodes what follows it
    from the given state. *)
Definition utf8_begin (h : errors) (rest : option pending → result pystr)
    (b : N) : result pystr :=
  match utf8_lead b with
  | Single c => emit c (rest None)
  | Lead n a l u => rest (Some {| need := n; acc := a; lo := l; hi := u |})
  | Invalid => on_error h (rest None)
  end.

(** The decoder.  A byte that cannot continue the sequence under way ends it
    as an error and is read again as a start byte; input that ends inside a
    sequence is an error too. *)
Fixpoint utf8_scan (h : errors) (st : option pending) (bs : list N)
    : result pystr :=
  match bs with
  | [] =>
      match st with
      | None => Ok []
      | Some _ => on_error h (Ok [])
      end
  | b :: bs' =>
      match st with
      | None => utf8_begin h (fun st' => utf8_scan h st' bs') b
      | Some p =>
          if in_range (lo p) (hi p) b then
            let a := acc p * 64 + N.land b 0x3F in
            match need p with
            | S (S n) =>
                utf8_scan h (Some {| need := S n; acc := a; lo := 0x80; hi := 0xBF |}) bs'
            | _ => emit a (utf8_scan h None bs')
            end
          else on_error h (utf8_begin h (fun st' => utf8_scan h st' bs') b)
      end
  end.

(** [bytes.decode("utf-8", errors)] *)
Definition utf8_decode (h : errors) (data : list Byte.byte) : result pystr :=
  utf8_scan h None (map Byte.to_N data).

(** Text mode reads with universal newlines: ["\r\n"] and a lone ["\r"]
    arrive as ["\n"]. *)
Fixpoint universal_newlines (s : pystr) : pystr :=
  match s with
  | [] => []
  | 13 :: s' =>
      match s' with
      | 10 :: s'' => 10 :: universal_newlines s''
      | _ => 10 :: universal_newlines s'
      end
  | c :: s' => c :: universal_newlines s'
  end.

(** ** The data model *)

(** A row of the [users] table, a field per column. *)
Module users.
Record row := {
  id : Z;
  username : pystr;
  password : pystr;
  firstname : option pystr;
  lastname : option pystr;
  email : option pystr;
  address : option pystr;
  limerick_filename : option pystr
}.
End users.

(** A node of the file system at a path: a file that opens and reads, or
    something that exists but whose opening or reading raises [OSError]
    (a directory, a file without read permission). *)
Inductive node :=
  | Readable (data : list Byte.byte)
  | Unreadable.

(** The statements and file operations a request performs, in order. *)
Inductive event :=
  | SqlSelect (username : pystr)
  | SqlInsert (username : pystr)
  | SqlUpdateDetails (username : pystr)
  | SqlUpdateFile (username : pystr)
  | FsExists (path : pystr)
  | FsRead (path : pystr)
  | FsWrite (path : pystr)
  | FsSend (directory name : pystr).

(** A message queued by [flash(message, category)]. *)
Record flashed := { message : string; category : string }.

Record world := {
  table : list users.row;      (* the rows of [users], in insertion order *)
  last_id : Z;                 (* the largest id AUTOINCREMENT has given *)
  session : gmap string pystr; (* Flask's [session] *)
  flashes : list flashed;      (* the messages queued for the next page *)
  fs : gmap pystr node;        (* the file system, by path *)
  log : list event             (* what has been executed so far *)
}.

(** ** Requests and responses *)

Inductive http_method := GET | POST.

(** An entry of [request.files]. *)
Record upload := { filename : pystr; content : list Byte.byte }.

Record request := {
  method : http_method;
  form : gmap string pystr;
  files : gmap string upload
}.

(** The targets of [url_for]. *)
Inductive endpoint :=
  | ep_register
  | ep_details
  | ep_login
  | ep_profile (username : pystr).

(** The templates with the variables they are rendered with. *)
Inductive page :=
  | register_html
  | login_html
  | details_html (user : users.row)
  | profile_html (user : users.row) (word_count : option nat)
      (has_file : bool) (completeness : Z).

Inductive response :=
  | Render (p : page)
  | Redirect (target : endpoint)
  | Attachment (name : pystr) (data : list Byte.byte)
  | NotFound.

(** What the operating system makes of [open(destination, "wb")] and of the
    writes that follow it. *)
Inductive write_outcome :=
  | Stored                 (* every byte is written and the file is closed *)
  | OpenRefused            (* [open] raises [OSError] and nothing is changed:
                              a name too long, a directory at the path, a
                              missing permission *)
  | WriteBroken (n : nat). (* the file is opened, and so created or emptied,
                              and a write raises [OSError] after [n] bytes:
                              a full disk *)

(** ** What the program takes from its libraries and its deployment *)

Class Externals := {
  (** [BASE_DIR / "uploads"], as a path string *)
  UPLOAD_FOLDER : pystr;
  (** [str.lower], which follows the Unicode tables *)
  str_lower : pystr → pystr;
  (** Werkzeug's [generate_password_hash], with the salt it draws *)
  generate_password_hash : pystr → pystr → pystr;
  (** Werkzeug's [check_password_hash(pwhash, password)] *)
  check_password_hash : pystr → pystr → bool;
  (** Werkzeug's [secure_filename] *)
  secure_filename : pystr → pystr;
  (** Flask's [send_from_directory(directory, path, as_attachment=True)] *)
  send_from_directory : pystr → pystr → gmap pystr node → response;
  (** the operating system, asked to write these bytes at this path of this
      file system *)
  os_write : pystr → list Byte.byte → gmap pystr node → write_outcome
}.

(** On ASCII text [str.lower] lowers the ASCII capitals and nothing else. *)
Definition lower_on_ascii `{Externals} : Prop :=
  ∀ s, is_ascii s = true → str_lower s = map ascii_lower s.

(** ** The monad of handlers: state and exceptions *)

Definition M (A : Type) : Type := world → result A * world.

Definition ret {A} (a : A) : M A := fun w => (Ok a, w).

Definition bind {A B} (m : M A) (k : A → M B) : M B :=
  fun w =>
    match m w with
    | (Ok a, w') => k a w'
    | (Raised e, w') => (Raised e, w')
    end.

(** [try: m / except e: ...]: whether [e] was raised and caught. *)
Definition try_except (m : M unit) (e : exn) : M bool :=
  fun w =>
    match m w with
    | (Ok _, w') => (Ok false, w')
    | (Raised e', w') => if decide (e' = e) then (Ok true, w') else (Raised e', w')
    end.

(** [try: m / except e: handler], for a body that returns a value. *)
Definition try_or {A} (m : M A) (e : exn) (handler : M A) : M A :=
  fun w =>
    match m w with
    | (Ok a, w') => (Ok a, w')
    | (Raised e', w') => if decide (e' = e) then handler w' else (Raised e', w')
    end.

Notation "x <~ m ; k" := (bind m (fun x => k))
  (at level 100, m at next level, right associativity).
Notation "m >> k" := (bind m (fun _ => k))
  (at level 100, right associativity).

Definition emit_event (ev : event) : M unit :=
  fun w =>
    (Ok tt, {| table := table w; last_id := last_id w; session := session w;
               flashes := flashes w; fs := fs w; log := log w ++ [ev] |}).

(** [flash(message, category)] *)
Definition flash (msg cat : string) : M unit :=
  fun w =>
    (Ok tt, {| table := table w; last_id := last_id w; session := session w;
               flashes := flashes w ++ [{| message := msg; category := cat |}];
               fs := fs w; log := log w |}).

(** [session.get(key)] *)
Definition session_get (key : string) : M (option pystr) :=
  fun w => (Ok (session w !! key), w).

(** [session[key] = value] *)
Definition session_set (key : string) (value : pystr) : M unit :=
  fun w =>
    (Ok tt, {| table := table w; last_id := last_id w;
               session := <[key := value]> (session w);
               flashes := flashes w; fs := fs w; log := log w |}).

(** [session.clear()]: the queued messages live in the session as well. *)
Definition session_clear : M unit :=
  fun w =>
    (Ok tt, {| table := table w; last_id := last_id w; session := ∅;
               flashes := []; fs := fs w; log := log w |}).

(** ** The credential store *)

Definition has_username (u : pystr) (r : users.row) : bool :=
  bool_decide (users.username r = u).

(** [SELECT * FROM users WHERE username = ?], [fetchone()] *)
Definition select_user (u : pystr) (rows : list users.row) : option users.row :=
  List.find (has_username u) rows.

(** [get_user(username)] *)
Definition get_user (username : pystr) : M (option users.row) :=
  emit_event (SqlSelect username) >>
  fun w => (Ok (select_user username (table w)), w).

Definition max_id (rows : list users.row) : Z :=
  fold_right (fun r m => Z.max (users.id r) m) 0%Z rows.

(** [INSERT INTO users (username, password) VALUES (?, ?)] and the commit:
    the UNIQUE constraint on [username] raises [IntegrityError], and a new
    row takes the next id with its other columns NULL. *)
Definition insert_user (username hashed : pystr) : M unit :=
  emit_event (SqlInsert username) >>
  fun w =>
    match select_user username (table w) with
    | Some _ => (Raised IntegrityError, w)
    | None =>
        let i := (Z.max (last_id w) (max_id (table w)) + 1)%Z in
        (Ok tt,
         {| table := table w ++
              [{| users.id := i; users.username := username;
                  users.password := hashed;
                  users.firstname := None; users.lastname := None;
                  users.email := None; users.address := None;
                  users.limerick_filename := None |}];
            last_id := i; session := session w; flashes := flashes w;
            fs := fs w; log := log w |})
    end.

Definition set_details (firstname lastname email address : pystr)
    (r : users.row) : users.row :=
  {| users.id := users.id r; users.username := users.username r;
     users.password := users.password r;
     users.firstname := Some firstname; users.lastname := Some lastname;
     users.email := Some email; users.address := Some address;
     users.limerick_filename := users.limerick_filename r |}.

Definition set_file (name : pystr) (r : users.row) : users.row :=
  {| users.id := users.id r; users.username := users.username r;
     users.password := users.password r;
     users.firstname := users.firstname r; users.lastname := users.lastname r;
     users.email := users.email r; users.address := users.address r;
     users.limerick_filename := Some name |}.

(** [UPDATE users SET ... WHERE username = ?] *)
Definition update_where (u : pystr) (f : users.row → users.row)
    (rows : list users.row) : list users.row :=
  map (fun r => if has_username u r then f r else r) rows.

Definition set_table (rows : list users.row) : M unit :=
  fun w =>
    (Ok tt, {| table := rows; last_id := last_id w; session := session w;
               flashes := flashes w; fs := fs w; log := log w |}).

(** [update_user_details(username, firstname, lastname, email, address)] *)
Definition update_user_details
    (username firstname lastname email address : pystr) : M unit :=
  emit_event (SqlUpdateDetails username) >>
  fun w =>
    set_table (update_where username (set_details firstname lastname email address)
                 (table w)) w.

(** [update_user_file(username, filename)] *)
Definition update_user_file (username name : pystr) : M unit :=
  emit_event (SqlUpdateFile username) >>
  fun w => set_table (update_where username (set_file name) (table w)) w.

(** ** Files *)

(** [base / name] for a relative [name]; an absolute [name] replaces
    [base]. *)
Definition path_join (base name : pystr) : pystr :=
  match name with
  | c :: _ => if c =? slash then name else base ++ slash :: name
  | [] => base
  end.

(** The argument of [get_word_count]: [None], a [str] or a [Path]. *)
Inductive path_arg :=
  | PyNone
  | PyStr (s : pystr)
  | PyPath (p : pystr).

(** [not file_path]: [None] and the empty string are false, a [Path] object
    is always true. *)
Definition path_falsy (a : path_arg) : bool :=
  match a with
  | PyNone => true
  | PyStr s => negb (truthy s)
  | PyPath _ => false
  end.

Definition path_of (a : path_arg) : pystr :=
  match a with
  | PyNone => []
  | PyStr s => s
  | PyPath p => p
  end.

(** [Path(p).exists()] *)
Definition path_exists (p : pystr) : M bool :=
  emit_event (FsExists p) >>
  fun w => (Ok (bool_decide (is_Some (fs w !! p))), w).

(** [open(p, "r", encoding="utf-8", errors=h)] and [handle.read()] *)
Definition read_text (h : errors) (p : pystr) : M pystr :=
  emit_event (FsRead p) >>
  fun w =>
    match fs w !! p with
    | Some (Readable data) =>
        match utf8_decode h data with
        | Ok s => (Ok (universal_newlines s), w)
        | Raised e => (Raised e, w)
        end
    | Some Unreadable | None => (Raised OSError, w)
    end.

(** What is at a path once [data] has been written there: the bytes, which
    read back, unless what was there could not be read (a file without read
    permission keeps its mode). *)
Definition written (old : option node) (data : list Byte.byte) : node :=
  match old with
  | Some Unreadable => Unreadable
  | Some (Readable _) | None => Readable data
  end.

(** [file.save(destination)]: Werkzeug opens the destination with mode
    ["wb"] and copies the upload into it.  The write replaces what was at
    the path; the [OSError] of a refused [open] or of a broken write is
    raised to the caller. *)
Definition save `{Externals} (file : upload) (destination : pystr) : M unit :=
  emit_event (FsWrite destination) >>
  fun w =>
    let put data :=
      {| table := table w; last_id := last_id w; session := session w;
         flashes := flashes w;
         fs := <[destination := written (fs w !! destination) data]> (fs w);
         log := log w |} in
    match os_write destination (content file) (fs w) with
    | Stored => (Ok tt, put (content file))
    | OpenRefused => (Raised OSError, w)
    | WriteBroken n => (Raised OSError, put (take n (content file)))
    end.

(** [get_word_count(file_path)] *)
Definition get_word_count (file_path : path_arg) : M (option nat) :=
  if path_falsy file_path then ret None
  else
    found <~ path_exists (path_of file_path);
    if negb found then ret None
    else
      try_or
        (text <~ read_text ignore (path_of file_path);
         ret (Some (count_words text)))
        OSError
        (ret None).

(** ** Floats: the completeness percentage *)

(** [int(x)] for a finite float: the integer part, towards zero.  (Python
    raises on an infinity or a NaN; no caller here produces one.) *)
Definition int_of_float (x : float) : Z :=
  match Prim2SF x with
  | S754_finite neg m e =>
      let magnitude :=
        if (0 <=? e)%Z then (Z.pos m * 2 ^ e)%Z else (Z.pos m / 2 ^ (- e))%Z in
      if neg then (- magnitude)%Z else magnitude
  | _ => 0%Z
  end.

(** [float(n)] for a small count. *)
Definition float_of_nat (n : nat) : float :=
  PrimFloat.of_uint63 (Uint63.of_Z (Z.of_nat n)).

(** [int((filled_fields / 4) * 100)] *)
Definition completeness_of (filled_fields : nat) : Z :=
  int_of_float (PrimFloat.mul (PrimFloat.div (float_of_nat filled_fields) 4%float) 100%float).

(** [value or ""] for a nullable column. *)
Definition or_empty (value : option pystr) : pystr := default [] value.

(** The generator of the [sum] in [profile]: one for every key whose value
    is non-empty once stripped. *)
Definition filled_fields (user : users.row) : nat :=
  length
    (filter (fun value => truthy (strip (or_empty value)) = true)
       [users.firstname user; users.lastname user; users.email user;
        users.address user]).

(** [s.startswith(prefix)] *)
Fixpoint startswith (prefix s : pystr) : bool :=
  match prefix, s with
  | [], _ => true
  | p :: prefix', c :: s' => (p =? c) && startswith prefix' s'
  | _ :: _, [] => false
  end.

(** [request.form.get(key, "")] *)
Definition form_get (req : request) (key : string) : pystr :=
  default [] (form req !! key).

(** ** The application *)

Section App.
Context `{Externals}.

(** [allowed_file(filename)]; the [and] guards the index into the list of
    [rsplit], which has a second element whenever there is a dot. *)
Definition allowed_file (filename : pystr) : bool :=
  contains dot filename &&
  match rsplit1 dot filename !! 1%nat with
  | Some ext => bool_decide (str_lower ext ∈ ALLOWED_EXTENSIONS)
  | None => false
  end.

(** [require_login()] *)
Definition require_login : M (option pystr) :=
  username <~ session_get "username";
  if truthy (or_empty username) then ret username
  else (flash "Please log in to continue." "error" >> ret None).

(** The check of a candidate against a stored password in [login]; a
    [str] is its own [or ""]. *)
Definition password_valid (stored_password password : pystr) : bool :=
  let is_hashed :=
    startswith (of_string "pbkdf2:") stored_password ||
    startswith (of_string "scrypt:") stored_password in
  if is_hashed then check_password_hash stored_password password
  else bool_decide (stored_password = password).

(** [register()], at [/]; [salt] is what the hash draws at random. *)
Definition register (salt : pystr) (req : request) : M response :=
  match method req with
  | POST =>
      let username := strip (form_get req "username") in
      let password := strip (form_get req "password") in
      if negb (truthy username) || negb (truthy password) then
        flash "Username and password are required." "error" >>
        ret (Render register_html)
      else
        let hashed := generate_password_hash salt password in
        taken <~ try_except (insert_user username hashed) IntegrityError;
        if (taken : bool) then
          flash "That username is already taken. Try another." "error" >>
          ret (Render register_html)
        else
          session_set "username" username >>
          flash "Account created. Add your details below." "success" >>
          ret (Redirect ep_details)
  | GET => ret (Render register_html)
  end.

(** [details()], at [/details] *)
Definition details (req : request) : M response :=
  username <~ require_login;
  match username with
  | None => ret (Redirect ep_login)
  | Some username =>
      user <~ get_user username;
      match user with
      | None =>
          flash "Account not found. Please register again." "error" >>
          ret (Redirect ep_register)
      | Some user =>
          match method req with
          | POST =>
              let firstname := strip (form_get req "firstname") in
              let lastname := strip (form_get req "lastname") in
              let email := strip (form_get req "email") in
              let address := strip (form_get req "address") in
              update_user_details username firstname lastname email address >>
              flash "Profile details saved." "success" >>
              ret (Redirect (ep_profile username))
          | GET => ret (Render (details_html user))
          end
      end
  end.

(** [login()], at [/login] *)
Definition login (req : request) : M response :=
  match method req with
  | POST =>
      let username := strip (form_get req "username") in
      let password := strip (form_get req "password") in
      if negb (truthy username) || negb (truthy password) then
        flash "Both fields are required." "error" >>
        ret (Render login_html)
      else
        user <~ get_user username;
        match user with
        | None =>
            flash "Invalid username or password." "error" >>
            ret (Render login_html)
        | Some user =>
            if negb (password_valid (users.password user) password) then
              flash "Invalid username or password." "error" >>
              ret (Render login_html)
            else
              session_set "username" username >>
              flash "Welcome back!" "success" >>
              ret (Redirect (ep_profile username))
        end
  | GET => ret (Render login_html)
  end.

(** [logout()], at [/logout] *)
Definition logout : M response :=
  session_clear >>
  flash "You are now logged out." "success" >>
  ret (Redirect ep_login).

(** The [POST] branch of [profile]: the intake of the uploaded file. *)
Definition profile_post (username : pystr) (req : request) : M response :=
  match files req !! "limerick" with
  | None =>
      flash "Please choose a file to upload." "error" >>
      ret (Redirect (ep_profile username))
  | Some file =>
      if bool_decide (filename file = []) then
        flash "No file selected." "error" >>
        ret (Redirect (ep_profile username))
      else if negb (allowed_file (filename file)) then
        flash "Only .txt files are allowed." "error" >>
        ret (Redirect (ep_profile username))
      else
        let safe_name := secure_filename (filename file) in
        let stored_name := username ++ of_string "_Limerick.txt" in
        (if negb (bool_decide (str_lower safe_name = of_string "limerick.txt"))
         then flash "Uploaded file accepted. For grading, Limerick.txt is recommended." "info"
         else ret tt) >>
        let destination := path_join UPLOAD_FOLDER stored_name in
        save file destination >>
        update_user_file username stored_name >>
        word_count <~ get_word_count (PyPath destination);
        match word_count with
        | None => flash "File uploaded, but word count could not be read." "error"
        | Some n => flash ("File uploaded. Word count: " +:+ pretty n) "success"
        end >>
        ret (Redirect (ep_profile username))
  end.

(** The [GET] branch of [profile]: the page with its count and its
    completeness. *)
Definition profile_get (user : users.row) : M response :=
  let has_file := truthy (or_empty (users.limerick_filename user)) in
  word_count <~
    (if has_file
     then get_word_count
            (PyPath (path_join UPLOAD_FOLDER (or_empty (users.limerick_filename user))))
     else ret None);
  let completeness := completeness_of (filled_fields user) in
  ret (Render (profile_html user word_count has_file completeness)).

(** [profile(username)], at [/profile/<username>] *)
Definition profile (username : pystr) (req : request) : M response :=
  current_user <~ require_login;
  match current_user with
  | None => ret (Redirect ep_login)
  | Some current_user =>
      if negb (bool_decide (current_user = username)) then
        flash "You can only access your own profile." "error" >>
        ret (Redirect (ep_profile current_user))
      else
        user <~ get_user username;
        match user with
        | None =>
            flash "Profile not found." "error" >>
            ret (Redirect ep_register)
        | Some user =>
            match method req with
            | POST => profile_post username req
            | GET => profile_get user
            end
        end
  end.

(** [download(username)], at [/download/<username>] *)
Definition download (username : pystr) : M response :=
  current_user <~ require_login;
  match current_user with
  | None => ret (Redirect ep_login)
  | Some current_user =>
      if negb (bool_decide (current_user = username)) then
        flash "You can only download your own file." "error" >>
        ret (Redirect (ep_profile current_user))
      else
        user <~ get_user username;
        match user with
        | Some user =>
            if truthy (or_empty (users.limerick_filename user)) then
              emit_event (FsSend UPLOAD_FOLDER (or_empty (users.limerick_filename user))) >>
              fun w =>
                (Ok (send_from_directory UPLOAD_FOLDER
                       (or_empty (users.limerick_filename user)) (fs w)), w)
            else
              flash "No file available to download." "error" >>
              ret (Redirect (ep_profile username))
        | None =>
            flash "No file available to download." "error" >>
            ret (Redirect (ep_profile username))
        end
  end.

End App.

(** ** Observations on a run *)

(** The flash queue after one more message. *)
Definition with_flash (w : world) (msg cat : string) : list flashed :=
  flashes w ++ [{| message := msg; category := cat |}].

(** Nothing was written: the table, the sequence and the files are as
    before. *)
Definition store_unchanged (w w' : world) : Prop :=
  table w' = table w ∧ last_id w' = last_id w ∧ fs w' = fs w.

(** What the caller of a handler can see of a run: the response, the
    messages queued for the page and the session. *)
Definition visible {A} (run : result A * world)
    : result A * list flashed * gmap string pystr :=
  (fst run, flashes (snd run), session (snd run)).

(** The session names a user only if the user has a row: what the
    handlers keep true from one request to the next. *)
Definition session_valid (w : world) : Prop :=
  ∀ u, session w !! "username"%string = Some u →
       is_Some (select_user u (table w)).

(** The stored value begins with a recognized algorithm tag. *)
Definition tagged (stored : pystr) : Prop :=
  (∃ rest, stored = of_string "pbkdf2:" ++ rest) ∨
  (∃ rest, stored = of_string "scrypt:" ++ rest).

(** The login went through: the answer is the redirect to the user's
    profile and the session is bound to the user. *)
Definition login_accepts `{Externals} (req : request) (w : world) : Prop :=
  fst (login req w) = Ok (Redirect (ep_profile (strip (form_get req "username")))) ∧
  session (snd (login req w)) !! "username"%string
    = Some (strip (form_get req "username")).

(** The login was turned down with the generic message, the session as it
    was. *)
Definition login_refuses `{Externals} (req : request) (w : world) : Prop :=
  visible (login req w)
    = (Ok (Render login_html),
       with_flash w "Invalid username or password." "error", session w).

(** The notice about the name of an accepted file, if its name calls for
    one. *)
Definition filename_notice `{Externals} (name : pystr) : list flashed :=
  if bool_decide (str_lower (secure_filename name) = of_string "limerick.txt")
  then []
  else [{| message := "Uploaded file accepted. For grading, Limerick.txt is recommended.";
           category := "info" |}].

(** The upload was turned down: the answer is the redirect to the profile
    with the given error, nothing was written, and the one statement run is
    the SELECT of the owner's row. *)
Definition upload_rejected `{Externals} (username : pystr) (req : request)
    (w : world) (msg : string) : Prop :=
  visible (profile username req w)
    = (Ok (Redirect (ep_profile username)), with_flash w msg "error", session w) ∧
  store_unchanged w (snd (profile username req w)) ∧
  log (snd (profile username req w)) = log w ++ [SqlSelect username].

(** The upload was taken in: the file is at its destination and the answer
    is the redirect to the profile. *)
Definition upload_stored `{Externals} (username : pystr) (req : request)
    (w : world) (file : upload) : Prop :=
  fst (profile username req w) = Ok (Redirect (ep_profile username)) ∧
  fs (snd (profile username req w))
    !! path_join UPLOAD_FOLDER (username ++ of_string "_Limerick.txt")
    = Some (Readable (content file)).

(** The notice about the name of the uploaded file, which comes before the
    write. *)
Definition notice_of `{Externals} (file : upload) : M unit :=
  if negb (bool_decide (str_lower (secure_filename (filename file))
                        = of_string "limerick.txt"))
  then flash "Uploaded file accepted. For grading, Limerick.txt is recommended." "info"
  else ret tt.

(** What the upload flashes last: the count of the file, or that the file
    could not be read back. *)
Definition count_message (word_count : option nat) : flashed :=
  match word_count with
  | None => {| message := "File uploaded, but word count could not be read.";
               category := "error" |}
  | Some n => {| message := "File uploaded. Word count: " +:+ pretty n;
                 category := "success" |}
  end.

(** The operating system stores what is written at the path, and what the
    path holds afterwards can be read: no unreadable file was there. *)
Definition stores `{Externals} (destination : pystr) (data : list Byte.byte)
    (w : world) : Prop :=
  os_write destination data (fs w) = Stored ∧
  fs w !! destination ≠ Some Unreadable.

(** The upload passed the checks: after the SELECT of the owner's row the
    handler went on to write the file at its destination. *)
Definition upload_passed `{Externals} (username : pystr) (req : request)
    (w : world) : Prop :=
  (log w ++ [SqlSelect username;
             FsWrite (path_join UPLOAD_FOLDER (username ++ of_string "_Limerick.txt"))])
    `prefix_of` log (snd (profile username req w)).

(** A nullable text that is NULL, empty or made of whitespace only. *)
Definition blank (value : option pystr) : bool :=
  forallb isspace (or_empty value).

(** The number of the four detail fields that are not blank. *)
Definition fields_present (user : users.row) : nat :=
  length
    (filter (fun value => blank value = false)
       [users.firstname user; users.lastname user; users.email user;
        users.address user]).

(** The integer part of a rational, towards zero. *)
Definition truncate (q : Q) : Z := Z.quot (Qnum q) (Z.pos (Qden q)).

(** The percentage as the specification words it: the count over 4, times
    100, cut to an integer. *)
Definition percentage (count : nat) : Z :=
  truncate ((Z.of_nat count # 4) * (100 # 1))%Q.

(** ** Sample data

    A stand-in for the libraries, with which the handlers run on concrete
    requests: ASCII case folding, a toy salted hash, a file-name filter that
    keeps letters, digits, dots, dashes and underscores, and a directory
    lookup. *)

Definition sample_hash (salt password : pystr) : pystr :=
  of_string "scrypt:" ++ salt ++ 36 :: rev password.

Definition sample_check (pwhash password : pystr) : bool :=
  match cut_last 36 pwhash with
  | Some (_, digest) => bool_decide (digest = rev password)
  | None => false
  end.

Definition sample_safe_char (c : N) : bool :=
  in_range 48 57 c || in_range 65 90 c || in_range 97 122 c ||
  (c =? 45) || (c =? 46) || (c =? 95).

Definition sample_send (directory name : pystr) (files : gmap pystr node)
    : response :=
  match files !! path_join directory name with
  | Some (Readable data) => Attachment name data
  | _ => NotFound
  end.

(** The stand-in for the operating system refuses to open a path whose
    name, the part after the last slash, is longer than the 255 bytes of
    [NAME_MAX], and a path at which something unreadable is; it stores every
    other file. *)
Definition sample_os_write (destination : pystr) (data : list Byte.byte)
    (files : gmap pystr node) : write_outcome :=
  let name :=
    match cut_last slash destination with
    | Some (_, name) => name
    | None => destination
    end in
  if (255 <? length name)%nat then OpenRefused
  else match files !! destination with
       | Some Unreadable => OpenRefused
       | Some (Readable _) | None => Stored
       end.

Definition sample_externals : Externals := {|
  UPLOAD_FOLDER := of_string "/srv/app/uploads";
  str_lower := map ascii_lower;
  generate_password_hash := sample_hash;
  check_password_hash := sample_check;
  secure_filename := List.filter sample_safe_char;
  send_from_directory := sample_send;
  os_write := sample_os_write
|}.

(** The bytes of an ASCII text. *)
Definition bytes_of (s : string) : list Byte.byte :=
  map byte_of_ascii (list_ascii_of_string s).

Definition alice : pystr := of_string "alice".
Definition bob : pystr := of_string "bob".

Definition alice_row : users.row := {|
  users.id := 1;
  users.username := alice;
  users.password := sample_hash (of_string "NaCl") (of_string "wonderland");
  users.firstname := None;
  users.lastname := None;
  users.email := Some (of_string "alice@example.org");
  users.address := Some (of_string "   ");
  users.limerick_filename := None
|}.

(** A row whose details are all one blank character. *)
Definition spaces_row : users.row := {|
  users.id := 2;
  users.username := bob;
  users.password := of_string "hunter2";
  users.firstname := Some (of_string " ");
  users.lastname := Some (of_string " ");
  users.email := Some (of_string " ");
  users.address := Some (of_string " ");
  users.limerick_filename := None
|}.

(** A store with the one user [alice], who is logged in or not. *)
Definition sample_world (logged_in : option pystr) : world := {|
  table := [alice_row];
  last_id := 1;
  session := match logged_in with
             | Some u => {[ "username"%string := u ]}
             | None => ∅
             end;
  flashes := [];
  fs := ∅;
  log := []
|}.

(** A store without users. *)
Definition fresh_world : world := {|
  table := []; last_id := 0; session := ∅; flashes := []; fs := ∅; log := []
|}.

(** A file system with one file that is not valid UTF-8. *)
Definition garbled_path : pystr := of_string "/srv/app/uploads/bob_Limerick.txt".

Definition garbled_world : world := {|
  table := []; last_id := 0; session := ∅; flashes := [];
  fs := {[ garbled_path :=
             Readable [Byte.x68; Byte.x69; Byte.xff; Byte.x20; Byte.xc3;
                       Byte.x79; Byte.x6f; Byte.xe2; Byte.x82] ]};
  log := []
|}.

Definition post (fields : list (string * pystr)) : request := {|
  method := POST;
  form := list_to_map fields;
  files := ∅
|}.

Definition post_file (name : pystr) (data : list Byte.byte) : request := {|
  method := POST;
  form := ∅;
  files := {[ "limerick"%string := {| filename := name; content := data |} ]}
|}.

Definition get : request := {| method := GET; form := ∅; files := ∅ |}.

Definition blank_username_login : request :=
  post [("username"%string, of_string " "); ("password"%string, of_string "pw")].

Definition alice_login (pw : string) : request :=
  post [("username"%string, alice); ("password"%string, of_string pw)].

Definition alice_register (pw : string) : request :=
  post [("username"%string, alice); ("password"%string, of_string pw)].

Definition poem : list Byte.byte :=
  bytes_of "There was an old man" ++ [Byte.x0d; Byte.x0a] ++ bytes_of "with a beard".

Definition poem_file : upload :=
  {| filename := of_string "poem.txt"; content := poem |}.

Definition readme_file : upload :=
  {| filename := of_string "README"; content := poem |}.

Definition unnamed_file : upload := {| filename := []; content := [] |}.

Definition upload_of (file : upload) : request :=
  post_file (filename file) (content file).

(** ** The schema of the database

    [init_db] and [ensure_columns] work on the catalog of [users.db]: whether
    the table [users] exists and with which columns.  A column is its name
    and its declared type. *)

Abbreviation coldef := (string * string)%type.

(** The statements of schema change end with the new catalog or raise
    [sqlite3.OperationalError]. *)
Inductive ddl (A : Type) :=
  | Done (a : A)
  | OperationalError.
Arguments Done {A} a.
Arguments OperationalError {A}.

(** SQLite compares identifiers without regard to the case of ASCII
    letters. *)
Definition same_identifier (a b : string) : bool :=
  bool_decide (map ascii_lower (of_string a) = map ascii_lower (of_string b)).

(** The columns of the [CREATE TABLE] of [init_db]. *)
Definition USERS_COLUMNS : list coldef :=
  [("id", "INTEGER PRIMARY KEY AUTOINCREMENT"); ("username", "TEXT UNIQUE NOT NULL");
   ("password", "TEXT NOT NULL"); ("firstname", "TEXT"); ("lastname", "TEXT");
   ("email", "TEXT"); ("address", "TEXT"); ("limerick_filename", "TEXT")]%string.

(** The dictionary [init_db] passes to [ensure_columns], in its order. *)
Definition OPTIONAL_COLUMNS : list coldef :=
  [("firstname", "TEXT"); ("lastname", "TEXT"); ("email", "TEXT");
   ("address", "TEXT"); ("limerick_filename", "TEXT")]%string.

(** [CREATE TABLE IF NOT EXISTS users (...)] *)
Definition create_table_if_not_exists (columns : list coldef)
    (catalog : option (list coldef)) : option (list coldef) :=
  match catalog with
  | Some existing => Some existing
  | None => Some columns
  end.

(** The names [PRAGMA table_info(users)] lists; none for a missing table. *)
Definition table_info (catalog : option (list coldef)) : list string :=
  match catalog with
  | Some columns => map fst columns
  | None => []
  end.

(** [ALTER TABLE users ADD COLUMN name col_type]: the table must exist and
    must not have a column of that name already. *)
Definition alter_add_column (name col_type : string)
    (catalog : option (list coldef)) : ddl (option (list coldef)) :=
  match catalog with
  | None => OperationalError
  | Some columns =>
      if existsb (same_identifier name) (map fst columns)
      then OperationalError
      else Done (Some (columns ++ [(name, col_type)]))
  end.

(** The loop of [ensure_columns] over the items of the dictionary, with the
    set [existing] read before the loop. *)
Fixpoint add_missing (existing : list string) (columns : list coldef)
    (catalog : option (list coldef)) : ddl (option (list coldef)) :=
  match columns with
  | [] => Done catalog
  | (name, col_type) :: rest =>
      if bool_decide (name ∈ existing) then add_missing existing rest catalog
      else
        match alter_add_column name col_type catalog with
        | Done catalog' => add_missing existing rest catalog'
        | OperationalError => OperationalError
        end
  end.

(** [ensure_columns(columns)] *)
Definition ensure_columns (columns : list coldef)
    (catalog : option (list coldef)) : ddl (option (list coldef)) :=
  add_missing (table_info catalog) columns catalog.

(** [init_db()] *)
Definition init_db (catalog : option (list coldef)) : ddl (option (list coldef)) :=
  ensure_columns OPTIONAL_COLUMNS (create_table_if_not_exists USERS_COLUMNS catalog).

(** A column name that [ensure_columns] would add although the table has it
    under another spelling of its letters' case. *)
Definition case_clash (columns : list coldef) (names : list string) : Prop :=
  ∃ name, (name ∈ map fst columns) ∧ (name ∉ names) ∧
          existsb (same_identifier name) names = true.

Definition case_clashb (columns : list coldef) (names : list string) : bool :=
  existsb
    (fun c => negb (bool_decide (fst c ∈ names))
              && existsb (same_identifier (fst c)) names)
    columns.

(** The columns of a dictionary that a table with the given names lacks. *)
Definition missing_columns (columns : list coldef) (names : list string)
    : list coldef :=
  filter (fun c => fst c ∉ names) columns.

(** A name with its ASCII letters lowered: what SQLite compares. *)
Definition folded (name : string) : pystr := map ascii_lower (of_string name).

(** ** More observations on a run *)

(** What identifies an account: the columns no handler writes after the
    INSERT. *)
Definition credentials (r : users.row) : Z * pystr * pystr :=
  (users.id r, users.username r, users.password r).

(** The usernames of the table are pairwise different, and so are the
    ids. *)
Definition table_unique (w : world) : Prop :=
  NoDup (map users.username (table w)) ∧ NoDup (map users.id (table w)).

(** The answer is the redirect to the login page with the request to log
    in, and nothing was run or changed. *)
Definition sent_to_login (w : world) (run : result response * world) : Prop :=
  visible run
    = (Ok (Redirect ep_login),
       with_flash w "Please log in to continue." "error", session w) ∧
  log (snd run) = log w ∧
  store_unchanged w (snd run).

(** Nobody is logged in: the session has no username, or an empty one. *)
Definition anonymous (w : world) : Prop :=
  truthy (or_empty (session w !! "username"%string)) = false.

(** The row [register] inserts. *)
Definition new_row (i : Z) (username hashed : pystr) : users.row :=
  {| users.id := i; users.username := username; users.password := hashed;
     users.firstname := None; users.lastname := None; users.email := None;
     users.address := None; users.limerick_filename := None |}.

(** The number of the four detail fields of a form that are not blank. *)
Definition submitted_present (req : request) : nat :=
  length
    (filter (fun key => blank (form req !! key) = false)
       ["firstname"; "lastname"; "email"; "address"]%string).

(** The name under which the file of a user is stored, and its path. *)
Definition stored_name (username : pystr) : pystr :=
  username ++ of_string "_Limerick.txt".

Definition destination (upload_folder username : pystr) : pystr :=
  path_join upload_folder (stored_name username).

(** The request is an upload of the logged-in owner that passes the checks
    and whose write the operating system does not carry out. *)
Definition write_fails `{Externals} (username : pystr) (req : request)
    (w : world) : Prop :=
  session w !! "username"%string = Some username ∧ username ≠ [] ∧
  is_Some (select_user username (table w)) ∧ method req = POST ∧
  ∃ file, files req !! "limerick"%string = Some file ∧
          filename file ≠ [] ∧ allowed_file (filename file) = true ∧
          os_write (destination UPLOAD_FOLDER username) (content file) (fs w)
            ≠ Stored.

(** The text of a file as [get_word_count] reads it. *)
Definition text_of (data : list Byte.byte) : pystr :=
  match utf8_decode ignore data with
  | Ok text => universal_newlines text
  | Raised _ => []
  end.

(** The ways a request can leave the table: as it was, with rows rewritten
    in place by a function that keeps their credentials, or with one more
    row whose username is new and whose id is above the others. *)
Definition table_step (w w' : world) : Prop :=
  table w' = table w ∨
  (∃ v f, (∀ r, credentials (f r) = credentials r) ∧
          table w' = update_where v f (table w)) ∨
  (∃ r, table w' = table w ++ [r] ∧
        select_user (users.username r) (table w) = None ∧
        ∀ r0, r0 ∈ table w → (users.id r0 < users.id r)%Z).

(** One request served: the world before and after a handler ran. *)
Inductive served `{Externals} (w : world) : world → Prop :=
  | served_register (salt : pystr) (req : request) :
      served w (snd (register salt req w))
  | served_details (req : request) : served w (snd (details req w))
  | served_login (req : request) : served w (snd (login req w))
  | served_logout : served w (snd (logout w))
  | served_profile (username : pystr) (req : request) :
      served w (snd (profile username req w))
  | served_download (username : pystr) : served w (snd (download username w)).

(** The extensions that lower to "txt": [t] or [T], [x] or [X], [t] or
    [T]. *)
Definition txt_variant (ext : pystr) : Prop :=
  ∃ e1 e2 e3, ext = [e1; e2; e3] ∧ (e1 = 116 ∨ e1 = 84) ∧
              (e2 = 120 ∨ e2 = 88) ∧ (e3 = 116 ∨ e3 = 84).

(** ** More sample data *)

(** A request with the detail fields of a form. *)
Definition details_form (firstname lastname email address : string) : request :=
  post [("firstname", of_string firstname); ("lastname", of_string lastname);
        ("email", of_string email); ("address", of_string address)]%string.

Definition carol : pystr := of_string "carol".

Definition carol_register : request :=
  post [("username", of_string "  carol "); ("password", of_string "s3cret")]%string.

(** A table of an older version of the program, without the detail
    columns. *)
Definition old_catalog : option (list coldef) :=
  Some [("id", "INTEGER PRIMARY KEY AUTOINCREMENT"); ("username", "TEXT UNIQUE NOT NULL");
        ("password", "TEXT NOT NULL"); ("email", "TEXT")]%string.

(** A table with a column spelled [Email]. *)
Definition clashing_catalog : option (list coldef) :=
  Some [("id", "INTEGER PRIMARY KEY"); ("username", "TEXT"); ("password", "TEXT");
        ("Email", "TEXT")]%string.

Definition second_poem : list Byte.byte := bytes_of "one two three".

Definition second_file : upload :=
  {| filename := of_string "Limerick.txt"; content := second_poem |}.

(** The session names [carol], who has no row. *)
Definition stale_world : world := sample_world (Some carol).

(** A user whose name has 250 letters: the name of the stored file, of 263
    letters, is longer than a file name can be. *)
Definition long_name : pystr := repeat 97 250.

Definition long_world : world := {|
  table := [new_row 1 long_name (sample_hash (of_string "NaCl") (of_string "pw"))];
  last_id := 1;
  session := {[ "username"%string := long_name ]};
  flashes := [];
  fs := ∅;
  log := []
|}.

(** The row of [alice] names her file, but the file is not there. *)
Definition lost_file_world : world := {|
  table := [set_file (stored_name alice) alice_row];
  last_id := 1;
  session := {[ "username"%string := alice ]};
  flashes := [];
  fs := ∅;
  log := []
|}.

Definition carol_wrong_login : request :=
  post [("username", carol); ("password", of_string "guess")]%string.

(** The store of [alice], logged in, beside the stored file of [bob]. *)
Definition garbled_session : world := {|
  table := [alice_row];
  last_id := 1;
  session := {[ "username"%string := alice ]};
  flashes := [];
  fs := fs garbled_world;
  log := []
|}.

(** ** Facts about strings *)

Lemma truthy_rev (s : pystr) : truthy (rev s) = truthy s.
Proof.
  destruct s as [|c s]; [done|]. simpl.
  destruct (rev s); done.
Qed.

Lemma lstrip_all_space (s : pystr) :
  lstrip s = [] ↔ forallb isspace s = true.
Proof.
  induction s as [|c s IH]; simpl; [done|].
  destruct (isspace c); simpl; [exact IH|]. split; done.
Qed.

Lemma forallb_rev {A} (f : A → bool) (l : list A) :
  forallb f (rev l) = forallb f l.
Proof.
  induction l as [|x l IH]; simpl; [done|].
  rewrite forallb_app, IH. simpl. rewrite andb_true_r. apply andb_comm.
Qed.

Lemma existsb_rev {A} (f : A → bool) (l : list A) :
  existsb f (rev l) = existsb f l.
Proof.
  induction l as [|x l IH]; simpl; [done|].
  rewrite existsb_app, IH. simpl. rewrite orb_false_r. apply orb_comm.
Qed.

Lemma lstrip_suffix (s : pystr) : ∃ p, s = p ++ lstrip s ∧ forallb isspace p = true.
Proof.
  induction s as [|c s (p & Hp & Hall)]; simpl.
  - by exists [].
  - destruct (isspace c) eqn:Hc.
    + exists (c :: p). simpl. rewrite Hc, Hall. by rewrite <- Hp.
    + by exists [].
Qed.

(** A string strips to nothing exactly when it holds whitespace only. *)
Lemma strip_empty_iff (s : pystr) :
  truthy (strip s) = false ↔ forallb isspace s = true.
Proof.
  unfold strip, rstrip. rewrite truthy_rev.
  destruct (lstrip_suffix s) as (p & Hs & Hp).
  split.
  - intros Hf.
    assert (Hl : lstrip (rev (lstrip s)) = []).
    { destruct (lstrip (rev (lstrip s))); [done | discriminate Hf]. }
    apply lstrip_all_space in Hl. rewrite forallb_rev in Hl.
    rewrite Hs, forallb_app, Hp, Hl. done.
  - intros Hall.
    assert (Hl : lstrip s = []) by (by apply lstrip_all_space).
    rewrite Hl. done.
Qed.

Lemma strip_truthy_iff (s : pystr) :
  truthy (strip s) = true ↔ existsb (fun c => negb (isspace c)) s = true.
Proof.
  destruct (truthy (strip s)) eqn:Ht.
  - split; [intros _|done].
    destruct (existsb _ s) eqn:He; [done|].
    assert (forallb isspace s = true) as Hall.
    { clear Ht. induction s as [|c s IH]; simpl in *; [done|].
      apply orb_false_iff in He as [Hc He].
      apply negb_false_iff in Hc. rewrite Hc. simpl. by apply IH. }
    apply strip_empty_iff in Hall. congruence.
  - apply strip_empty_iff in Ht. split; [done|]. intros He. exfalso.
    induction s as [|c s IH]; simpl in *; [done|].
    apply andb_true_iff in Ht as [Hc Ht]. rewrite Hc in He. simpl in He.
    by apply IH.
Qed.

(** The words [split] yields are kept by the comprehension's filter. *)
Lemma split_from_kept (s cur : pystr) :
  (cur = [] ∨ existsb (fun c => negb (isspace c)) cur = true) →
  Forall (fun w => truthy (strip w) = true) (split_from cur s).
Proof.
  revert cur. induction s as [|c s IH]; intros cur Hcur; simpl.
  - destruct cur as [|d cur]; simpl; [constructor|].
    constructor; [|constructor].
    apply strip_truthy_iff. destruct Hcur as [?|Hcur]; [done|].
    change (rev cur ++ [d]) with (rev (d :: cur)).
    rewrite existsb_rev. exact Hcur.
  - destruct (isspace c) eqn:Hc.
    + destruct cur as [|d cur]; simpl.
      * apply IH. by left.
      * constructor; [|apply IH; by left].
        apply strip_truthy_iff. destruct Hcur as [?|Hcur]; [done|].
        change (rev cur ++ [d]) with (rev (d :: cur)).
        rewrite existsb_rev. exact Hcur.
    + apply IH. right. simpl. by rewrite Hc.
Qed.

Lemma filter_all {A} (P : A → Prop) `{∀ x, Decision (P x)} (l : list A) :
  Forall P l → filter P l = l.
Proof.
  induction 1 as [|x l Hx _ IH]; [done|].
  rewrite filter_cons. destruct (decide (P x)); [by rewrite IH | done].
Qed.

Lemma count_words_split (s : pystr) : count_words s = length (split s).
Proof.
  unfold count_words. rewrite filter_all; [done|].
  apply split_from_kept. by left.
Qed.

(** The scan of [split] and the pieces between runs hold the same non-empty
    words; inside a run no word is being read. *)
Lemma pieces_from_split (s cur : pystr) (in_run : bool) :
  (in_run = true → cur = []) →
  filter (fun piece => truthy piece = true) (pieces_from cur in_run s)
  = split_from cur s.
Proof.
  revert cur in_run. induction s as [|c s IH]; intros cur in_run Hrun; simpl.
  - rewrite filter_cons, filter_nil. rewrite truthy_rev.
    destruct (truthy cur); case_decide; done.
  - destruct (isspace c).
    + destruct in_run.
      * rewrite (Hrun eq_refl). simpl. by apply IH.
      * rewrite filter_cons, truthy_rev, IH by done.
        destruct (truthy cur); case_decide; done.
    + by apply IH.
Qed.

(** ** The word count *)

(** C4: for every string, [count_words] is the number of non-empty tokens
    left by cutting the string at its maximal runs of whitespace; the empty
    string and a string of blanks count 0 words and ["a b  c"] counts 3. *)
Theorem count_words_whitespace_tokens :
  (∀ s : pystr, count_words s = nonempty_tokens s) ∧
  count_words (of_string "") = 0%nat ∧
  count_words (of_string "a b  c") = 3%nat ∧
  count_words (of_string "   ") = 0%nat.
Proof.
  split; [|by vm_compute].
  intros s. rewrite count_words_split. unfold nonempty_tokens, pieces_between_runs.
  by rewrite pieces_from_split.
Qed.

(** ** Running handlers *)

Ltac run :=
  repeat (unfold bind, ret, flash, emit_event, session_get, session_set,
          get_user, insert_user, try_except, try_or, set_table,
          with_flash, store_unchanged, visible in *; simpl in *).

Lemma truthy_true (s : pystr) : truthy s = true ↔ s ≠ [].
Proof. destruct s; simpl; split; done. Qed.

Lemma startswith_prefix (prefix s : pystr) :
  startswith prefix s = true ↔ ∃ rest, s = prefix ++ rest.
Proof.
  revert s. induction prefix as [|p prefix IH]; intros s; simpl.
  - split; [by exists s | done].
  - destruct s as [|c s]; [split; [done | by intros [? ?]]|].
    rewrite andb_true_iff, N.eqb_eq, IH. split.
    + intros [-> [rest ->]]. by exists rest.
    + intros [rest Heq]. injection Heq as -> ->. split; [done | by exists rest].
Qed.

Lemma bind_ok {A B} (m : M A) (k : A → M B) (w w' : world) (a : A) :
  m w = (Ok a, w') → bind m k w = k a w'.
Proof. unfold bind. by intros ->. Qed.

(** ** Decoding with [errors="ignore"] *)

Lemma emit_ok (c : N) (k : result pystr) :
  (∃ s, k = Ok s) → ∃ s, emit c k = Ok s.
Proof. intros [s ->]. by exists (c :: s). Qed.

Lemma utf8_begin_ignore_ok (rest : option pending → result pystr) (b : N) :
  (∀ st, ∃ s, rest st = Ok s) → ∃ s, utf8_begin ignore rest b = Ok s.
Proof.
  intros Hrest. unfold utf8_begin.
  destruct (utf8_lead b); simpl; [by apply emit_ok | apply Hrest | apply Hrest].
Qed.

(** Whatever the bytes and the state, the scan under [ignore] ends with a
    string. *)
Lemma utf8_scan_ignore_ok (bs : list N) (st : option pending) :
  ∃ s, utf8_scan ignore st bs = Ok s.
Proof.
  revert st. induction bs as [|b bs IH]; intros st; simpl.
  - destruct st; by exists [].
  - destruct st as [p|]; [|by apply utf8_begin_ignore_ok].
    destruct (in_range (lo p) (hi p) b); [|by apply utf8_begin_ignore_ok].
    destruct (need p) as [|[|n]]; [by apply emit_ok | by apply emit_ok | apply IH].
Qed.

Lemma utf8_decode_ignore_ok (data : list Byte.byte) :
  ∃ s, utf8_decode ignore data = Ok s.
Proof. apply utf8_scan_ignore_ok. Qed.

(** ** The word count of a file *)

Lemma get_word_count_falsy (a : path_arg) (w : world) :
  path_falsy a = true → get_word_count a w = (Ok None, w).
Proof. intros Hf. unfold get_word_count. by rewrite Hf. Qed.

(** The three ways through [get_word_count] for an argument that is not
    false, by what is at the path. *)
Lemma get_word_count_cases (a : path_arg) (w : world) :
  path_falsy a = false →
  fst (get_word_count a w) =
    match fs w !! path_of a with
    | Some (Readable data) =>
        match utf8_decode ignore data with
        | Ok text => Ok (Some (count_words (universal_newlines text)))
        | Raised e => Raised e
        end
    | Some Unreadable => Ok None
    | None => Ok None
    end ∧
  store_unchanged w (snd (get_word_count a w)) ∧
  flashes (snd (get_word_count a w)) = flashes w ∧
  session (snd (get_word_count a w)) = session w.
Proof.
  intros Hf. unfold get_word_count, path_exists, read_text. rewrite Hf. run.
  destruct (fs w !! path_of a) as [[data|]|] eqn:Hnode; simpl;
    rewrite ?Hnode; simpl.
  - destruct (utf8_decode_ignore_ok data) as [text ->]. done.
  - done.
  - done.
Qed.

Lemma get_word_count_readable (a : path_arg) (w : world)
    (data : list Byte.byte) (text : pystr) :
  path_falsy a = false →
  fs w !! path_of a = Some (Readable data) →
  utf8_decode ignore data = Ok text →
  ∃ w', get_word_count a w
          = (Ok (Some (count_words (universal_newlines text))), w') ∧
        store_unchanged w w' ∧ flashes w' = flashes w ∧ session w' = session w.
Proof.
  intros Hf Hnode Hok.
  destruct (get_word_count_cases a w Hf) as (Hres & Hrest).
  rewrite Hnode, Hok in Hres.
  destruct (get_word_count a w) as [r w']. simpl in *. subst r.
  by exists w'.
Qed.

(** C10: for a path that exists and opens, [get_word_count] returns a count,
    whatever the bytes of the file: decoding under [errors="ignore"] always
    yields a text, where a strict decoding can raise.  It never raises, and
    it returns nothing only for [None] or an empty path, for a path at which
    there is nothing, or for one whose opening or reading raises
    [OSError]. *)
Theorem get_word_count_total :
  (∀ (a : path_arg) (w : world) (data : list Byte.byte),
     path_falsy a = false →
     fs w !! path_of a = Some (Readable data) →
     ∃ text, utf8_decode ignore data = Ok text ∧
       fst (get_word_count a w) = Ok (Some (count_words (universal_newlines text)))) ∧
  (∀ (a : path_arg) (w : world), ∃ r, fst (get_word_count a w) = Ok r) ∧
  (∀ (a : path_arg) (w : world),
     fst (get_word_count a w) = Ok None →
     path_falsy a = true ∨ fs w !! path_of a = None ∨
     fs w !! path_of a = Some Unreadable) ∧
  (∀ data : list Byte.byte, ∃ text, utf8_decode ignore data = Ok text) ∧
  utf8_decode strict [Byte.xff] = Raised UnicodeDecodeError ∧
  utf8_decode ignore [Byte.x68; Byte.x69; Byte.xff] = Ok (of_string "hi").
Proof.
  split; [|split; [|split; [|split; [|by vm_compute]]]].
  - intros a w data Hf Hnode.
    destruct (utf8_decode_ignore_ok data) as [text Hok]. exists text.
    split; [done|].
    destruct (get_word_count_cases a w Hf) as [-> _]. by rewrite Hnode, Hok.
  - intros a w. destruct (path_falsy a) eqn:Hf.
    + exists None. by rewrite get_word_count_falsy.
    + destruct (get_word_count_cases a w Hf) as [-> _].
      destruct (fs w !! path_of a) as [[data|]|]; [|by eexists..].
      destruct (utf8_decode_ignore_ok data) as [text ->]. by eexists.
  - intros a w Hnone. destruct (path_falsy a) eqn:Hf; [by left|]. right.
    destruct (get_word_count_cases a w Hf) as [Heq _]. rewrite Heq in Hnone.
    destruct (fs w !! path_of a) as [[data|]|]; [|by right|by left].
    destruct (utf8_decode_ignore_ok data) as [text Hok]. rewrite Hok in Hnone.
    discriminate Hnone.
  - apply utf8_decode_ignore_ok.
Qed.

(** ** Cutting at the last separator *)

Lemma cut_last_none (sep : N) (s : pystr) :
  cut_last sep s = None ↔ contains sep s = false.
Proof.
  induction s as [|c s IH]; simpl; [done|].
  rewrite (N.eqb_sym sep c).
  destruct (cut_last sep s) as [[a b]|].
  - split; [done|]. intros Hc. apply orb_false_iff in Hc as [_ Hc].
    apply IH in Hc. done.
  - destruct (c =? sep); simpl; [split; done|]. by apply IH.
Qed.

Lemma cut_last_sound (sep : N) (s a b : pystr) :
  cut_last sep s = Some (a, b) → s = a ++ sep :: b ∧ contains sep b = false.
Proof.
  revert a. induction s as [|c s IH]; intros a; simpl; [done|].
  destruct (cut_last sep s) as [[a' b']|] eqn:Hcut.
  - intros [= <- <-]. destruct (IH a' eq_refl) as [-> Hb]. done.
  - destruct (c =? sep) eqn:Hc; [|done].
    intros [= <- <-]. apply N.eqb_eq in Hc as ->.
    split; [done|]. by apply cut_last_none.
Qed.

Lemma cut_last_complete (sep : N) (a b : pystr) :
  contains sep b = false → cut_last sep (a ++ sep :: b) = Some (a, b).
Proof.
  intros Hb. induction a as [|c a IH]; simpl.
  - apply cut_last_none in Hb. by rewrite Hb, N.eqb_refl.
  - by rewrite IH.
Qed.

Lemma contains_app (sep : N) (a b : pystr) :
  contains sep (a ++ sep :: b) = true.
Proof.
  unfold contains. rewrite existsb_app. simpl. rewrite N.eqb_refl.
  by rewrite orb_true_r.
Qed.

Section AppFacts.
Context `{Externals}.

(** The session check lets a logged-in user through and touches nothing. *)
Lemma require_login_logged_in (u : pystr) (w : world) :
  session w !! "username"%string = Some u → u ≠ [] →
  require_login w = (Ok (Some u), w).
Proof.
  intros Hs Hu. unfold require_login. run. rewrite Hs. simpl.
  apply truthy_true in Hu. by rewrite Hu.
Qed.

Lemma profile_other (username current_user : pystr) (req : request) (w : world) :
  session w !! "username"%string = Some current_user →
  current_user ≠ [] →
  current_user ≠ username →
  profile username req w =
    (flash "You can only access your own profile." "error" >>
     ret (Redirect (ep_profile current_user))) w.
Proof.
  intros Hs Hne Hother. unfold profile.
  rewrite (bind_ok _ _ _ _ _ (require_login_logged_in current_user w Hs Hne)).
  by rewrite bool_decide_eq_false_2.
Qed.

Lemma download_other (username current_user : pystr) (w : world) :
  session w !! "username"%string = Some current_user →
  current_user ≠ [] →
  current_user ≠ username →
  download username w =
    (flash "You can only download your own file." "error" >>
     ret (Redirect (ep_profile current_user))) w.
Proof.
  intros Hs Hne Hother. unfold download.
  rewrite (bind_ok _ _ _ _ _ (require_login_logged_in current_user w Hs Hne)).
  by rewrite bool_decide_eq_false_2.
Qed.

(** C3: a request to [/profile/<username>] or [/download/<username>] from
    a session logged in as someone else is answered by a redirect to the
    caller's own profile with an error notice; it is not a 404, and the
    handler runs no statement and touches no file on the way. *)
Theorem cross_user_request_redirected
    (username current_user : pystr) (req : request) (w : world) :
  session w !! "username"%string = Some current_user →
  current_user ≠ [] →
  current_user ≠ username →
  (fst (profile username req w) = Ok (Redirect (ep_profile current_user)) ∧
   fst (profile username req w) ≠ Ok NotFound ∧
   flashes (snd (profile username req w))
     = with_flash w "You can only access your own profile." "error" ∧
   log (snd (profile username req w)) = log w ∧
   session (snd (profile username req w)) = session w ∧
   store_unchanged w (snd (profile username req w))) ∧
  (fst (download username w) = Ok (Redirect (ep_profile current_user)) ∧
   fst (download username w) ≠ Ok NotFound ∧
   flashes (snd (download username w))
     = with_flash w "You can only download your own file." "error" ∧
   log (snd (download username w)) = log w ∧
   session (snd (download username w)) = session w ∧
   store_unchanged w (snd (download username w))).
Proof.
  intros Hs Hne Hother.
  rewrite (profile_other _ _ _ _ Hs Hne Hother).
  rewrite (download_other _ _ _ Hs Hne Hother).
  run. done.
Qed.

(** *** Login *)

Lemma login_post (req : request) (w : world) :
  method req = POST →
  strip (form_get req "username") ≠ [] →
  strip (form_get req "password") ≠ [] →
  login req w =
    (user <~ get_user (strip (form_get req "username"));
     match user with
     | None =>
         flash "Invalid username or password." "error" >>
         ret (Render login_html)
     | Some user =>
         if negb (password_valid (users.password user)
                    (strip (form_get req "password")))
         then flash "Invalid username or password." "error" >>
              ret (Render login_html)
         else session_set "username" (strip (form_get req "username")) >>
              flash "Welcome back!" "success" >>
              ret (Redirect (ep_profile (strip (form_get req "username"))))
     end) w.
Proof.
  intros Hm Hu Hp. unfold login. rewrite Hm.
  apply truthy_true in Hu, Hp. by rewrite Hu, Hp.
Qed.

Lemma login_unknown_user (req : request) (w : world) :
  method req = POST →
  strip (form_get req "username") ≠ [] →
  strip (form_get req "password") ≠ [] →
  select_user (strip (form_get req "username")) (table w) = None →
  login_refuses req w ∧ store_unchanged w (snd (login req w)).
Proof.
  intros Hm Hu Hp Hsel. unfold login_refuses.
  rewrite (login_post req w Hm Hu Hp). run. by rewrite Hsel.
Qed.

Lemma login_wrong_password (req : request) (w : world) (user : users.row) :
  method req = POST →
  strip (form_get req "username") ≠ [] →
  strip (form_get req "password") ≠ [] →
  select_user (strip (form_get req "username")) (table w) = Some user →
  password_valid (users.password user) (strip (form_get req "password")) = false →
  login_refuses req w ∧ store_unchanged w (snd (login req w)).
Proof.
  intros Hm Hu Hp Hsel Hbad. unfold login_refuses.
  rewrite (login_post req w Hm Hu Hp). run. by rewrite Hsel, Hbad.
Qed.

Lemma login_right_password (req : request) (w : world) (user : users.row) :
  method req = POST →
  strip (form_get req "username") ≠ [] →
  strip (form_get req "password") ≠ [] →
  select_user (strip (form_get req "username")) (table w) = Some user →
  password_valid (users.password user) (strip (form_get req "password")) = true →
  login_accepts req w.
Proof.
  intros Hm Hu Hp Hsel Hgood. unfold login_accepts.
  rewrite (login_post req w Hm Hu Hp). run. rewrite Hsel, Hgood. simpl.
  split; [done|]. apply lookup_insert_eq.
Qed.

Lemma accepts_not_refuses (req : request) (w : world) :
  login_accepts req w → login_refuses req w → False.
Proof.
  unfold login_accepts, login_refuses, visible. intros [Hr _] Hv.
  rewrite Hr in Hv. discriminate Hv.
Qed.

(** C1: for a login POST with a non-empty username and password, these
    being what the handler makes of the two form fields by stripping them,
    an unknown username and a known username with a password that fails the
    check have the same visible outcome: the login form again, the one
    message "Invalid username or password." and the session as it was;
    neither writes to the store. *)
Theorem login_failures_indistinguishable
    (req : request) (w1 w2 : world) (user : users.row) :
  method req = POST →
  strip (form_get req "username") ≠ [] →
  strip (form_get req "password") ≠ [] →
  select_user (strip (form_get req "username")) (table w1) = None →
  select_user (strip (form_get req "username")) (table w2) = Some user →
  password_valid (users.password user) (strip (form_get req "password")) = false →
  session w1 = session w2 →
  flashes w1 = flashes w2 →
  visible (login req w1) = visible (login req w2) ∧
  visible (login req w1)
    = (Ok (Render login_html),
       with_flash w1 "Invalid username or password." "error", session w1) ∧
  store_unchanged w1 (snd (login req w1)) ∧
  store_unchanged w2 (snd (login req w2)).
Proof.
  intros Hm Hu Hp Hnone Hsome Hbad Hsess Hflash.
  destruct (login_unknown_user req w1 Hm Hu Hp Hnone) as [H1 Hs1].
  destruct (login_wrong_password req w2 user Hm Hu Hp Hsome Hbad) as [H2 Hs2].
  unfold login_refuses in *. rewrite H1, H2.
  unfold with_flash. rewrite Hsess, Hflash. done.
Qed.

(** C8: for a stored password and a candidate that reach the check of
    [login], a stored value that begins with "pbkdf2:" or "scrypt:" lets
    the login through exactly when the hash verification of the candidate
    against it succeeds, and any other stored value exactly when it equals
    the candidate; a login that is not let through is refused. *)
Theorem login_password_check
    (req : request) (w : world) (user : users.row) :
  method req = POST →
  strip (form_get req "username") ≠ [] →
  strip (form_get req "password") ≠ [] →
  select_user (strip (form_get req "username")) (table w) = Some user →
  (tagged (users.password user) →
     (login_accepts req w ↔
      check_password_hash (users.password user)
        (strip (form_get req "password")) = true)) ∧
  (¬ tagged (users.password user) →
     (login_accepts req w ↔
      users.password user = strip (form_get req "password"))) ∧
  (login_accepts req w ∨ login_refuses req w).
Proof.
  intros Hm Hu Hp Hsel.
  set (stored := users.password user).
  set (candidate := strip (form_get req "password")).
  assert (Hcase : ∀ b, password_valid stored candidate = b →
            if b then login_accepts req w else login_refuses req w).
  { intros [] Hb.
    - by apply (login_right_password req w user).
    - by apply (login_wrong_password req w user). }
  assert (Hiff : login_accepts req w ↔ password_valid stored candidate = true).
  { split.
    - intros Hacc. destruct (password_valid stored candidate) eqn:Hb; [done|].
      exfalso. apply (accepts_not_refuses req w Hacc). by apply (Hcase false).
    - intros Hb. by apply (Hcase true). }
  assert (Htag : tagged stored ↔
            startswith (of_string "pbkdf2:") stored
            || startswith (of_string "scrypt:") stored = true).
  { unfold tagged. rewrite orb_true_iff, !startswith_prefix. done. }
  split; [|split].
  - intros Ht. rewrite Hiff. unfold password_valid.
    apply Htag in Ht. by rewrite Ht.
  - intros Hnt. rewrite Hiff. unfold password_valid.
    destruct (startswith _ stored || startswith _ stored) eqn:Hs.
    + exfalso. apply Hnt. by apply Htag.
    + by rewrite bool_decide_eq_true.
  - destruct (password_valid stored candidate) eqn:Hb.
    + left. by apply (Hcase true).
    + right. by apply (Hcase false).
Qed.

(** *** Registration *)

Lemma insert_user_duplicate (username hashed : pystr) (w : world) (user : users.row) :
  select_user username (table w) = Some user →
  fst (insert_user username hashed w) = Raised IntegrityError ∧
  store_unchanged w (snd (insert_user username hashed w)).
Proof. intros Hsel. run. by rewrite Hsel. Qed.

(** C2, amended: for a register POST with a non-empty username and
    password, as the handler strips them, whose username already has a row,
    the INSERT raises the integrity error of the UNIQUE constraint, the
    register form is shown again with the message that the name is taken,
    the session is as it was, and the table, and with it the row of that
    user, is unchanged. *)
Theorem register_duplicate_username
    (salt : pystr) (req : request) (w : world) (user : users.row) :
  method req = POST →
  strip (form_get req "username") ≠ [] →
  strip (form_get req "password") ≠ [] →
  select_user (strip (form_get req "username")) (table w) = Some user →
  fst (insert_user (strip (form_get req "username"))
         (generate_password_hash salt (strip (form_get req "password"))) w)
    = Raised IntegrityError ∧
  visible (register salt req w)
    = (Ok (Render register_html),
       with_flash w "That username is already taken. Try another." "error",
       session w) ∧
  log (snd (register salt req w))
    = log w ++ [SqlInsert (strip (form_get req "username"))] ∧
  store_unchanged w (snd (register salt req w)) ∧
  select_user (strip (form_get req "username")) (table (snd (register salt req w)))
    = Some user.
Proof.
  intros Hm Hu Hp Hsel.
  split; [by apply (insert_user_duplicate _ _ _ user)|].
  unfold register. rewrite Hm.
  apply truthy_true in Hu, Hp. rewrite Hu, Hp. run. rewrite Hsel. simpl.
  done.
Qed.

(** *** The intake of an uploaded file *)

(** A name is allowed exactly when the text after its last dot lowers to
    "txt". *)
Lemma allowed_file_spec (name : pystr) :
  allowed_file name = true ↔
  ∃ stem ext, name = stem ++ dot :: ext ∧ contains dot ext = false ∧
              str_lower ext = of_string "txt".
Proof.
  unfold allowed_file, rsplit1, ALLOWED_EXTENSIONS. split.
  - intros Hallowed. apply andb_true_iff in Hallowed as [_ Hext].
    destruct (cut_last dot name) as [[stem ext]|] eqn:Hcut; [|done].
    apply cut_last_sound in Hcut as [-> Hdot]. exists stem, ext.
    simpl in Hext. apply bool_decide_eq_true in Hext.
    by apply elem_of_singleton in Hext.
  - intros (stem & ext & -> & Hdot & Hlow).
    rewrite contains_app, (cut_last_complete _ _ _ Hdot). simpl.
    apply bool_decide_eq_true. by apply elem_of_singleton.
Qed.

Lemma allowed_file_no_dot (name : pystr) :
  contains dot name = false → allowed_file name = false.
Proof. intros Hdot. unfold allowed_file. by rewrite Hdot. Qed.

Lemma allowed_file_examples :
  lower_on_ascii →
  allowed_file (of_string "notes.doc") = false ∧
  allowed_file (of_string "Limerick.TXT") = true.
Proof.
  intros Hlow. unfold allowed_file, rsplit1. split.
  - change (cut_last dot (of_string "notes.doc"))
      with (Some (of_string "notes", of_string "doc")).
    simpl. rewrite Hlow by done. by vm_compute.
  - change (cut_last dot (of_string "Limerick.TXT"))
      with (Some (of_string "Limerick", of_string "TXT")).
    simpl. rewrite Hlow by done. by vm_compute.
Qed.

(** The owner of the profile, with a row, gets to the branch of the
    method, the SELECT of the row behind. *)
Lemma profile_owner (username : pystr) (req : request) (w : world) (user : users.row) :
  session w !! "username"%string = Some username →
  username ≠ [] →
  select_user username (table w) = Some user →
  profile username req w =
    match method req with
    | POST => profile_post username req
    | GET => profile_get user
    end (snd (emit_event (SqlSelect username) w)).
Proof.
  intros Hs Hne Hsel. unfold profile.
  rewrite (bind_ok _ _ _ _ _ (require_login_logged_in username w Hs Hne)).
  rewrite bool_decide_eq_true_2 by done. run. by rewrite Hsel.
Qed.

Lemma profile_post_no_part (username : pystr) (req : request) (w : world) :
  files req !! "limerick"%string = None →
  profile_post username req w =
    (flash "Please choose a file to upload." "error" >>
     ret (Redirect (ep_profile username))) w.
Proof. unfold profile_post. by intros ->. Qed.

Lemma profile_post_empty_name (username : pystr) (req : request) (w : world)
    (file : upload) :
  files req !! "limerick"%string = Some file →
  filename file = [] →
  profile_post username req w =
    (flash "No file selected." "error" >>
     ret (Redirect (ep_profile username))) w.
Proof.
  unfold profile_post. intros -> Hempty. by rewrite bool_decide_eq_true_2.
Qed.

Lemma profile_post_bad_extension (username : pystr) (req : request) (w : world)
    (file : upload) :
  files req !! "limerick"%string = Some file →
  filename file ≠ [] →
  allowed_file (filename file) = false →
  profile_post username req w =
    (flash "Only .txt files are allowed." "error" >>
     ret (Redirect (ep_profile username))) w.
Proof.
  unfold profile_post. intros -> Hname Hbad.
  rewrite bool_decide_eq_false_2 by done. by rewrite Hbad.
Qed.

(** What [get_word_count] logs comes after what was logged. *)
Lemma get_word_count_log (a : path_arg) (w : world) :
  log w `prefix_of` log (snd (get_word_count a w)).
Proof.
  unfold get_word_count, path_exists, read_text.
  destruct (path_falsy a); [done|]. run.
  destruct (fs w !! path_of a) as [[data|]|] eqn:Hnode; simpl;
    rewrite ?Hnode; simpl.
  - destruct (utf8_decode_ignore_ok data) as [text ->]. simpl.
    rewrite <- app_assoc. by apply prefix_app_r.
  - rewrite <- app_assoc. by apply prefix_app_r.
  - by apply prefix_app_r.
Qed.

Lemma notice_of_run (file : upload) (w : world) :
  ∃ w1, notice_of file w = (Ok tt, w1) ∧
        flashes w1 = flashes w ++ filename_notice (filename file) ∧
        table w1 = table w ∧ last_id w1 = last_id w ∧ fs w1 = fs w ∧
        session w1 = session w ∧ log w1 = log w.
Proof.
  unfold notice_of, filename_notice. destruct (bool_decide _); simpl.
  - eexists. split; [reflexivity|]. simpl. by rewrite app_nil_r.
  - eexists. split; [reflexivity|]. done.
Qed.

Lemma count_message_run {A} (word_count : option nat) (r : A) (w : world) :
  (match word_count with
   | None => flash "File uploaded, but word count could not be read." "error"
   | Some n => flash ("File uploaded. Word count: " +:+ pretty n) "success"
   end >> ret r) w
  = (Ok r, {| table := table w; last_id := last_id w; session := session w;
              flashes := flashes w ++ [count_message word_count];
              fs := fs w; log := log w |}).
Proof. by destruct word_count. Qed.

(** An upload that passes the three checks and whose write the operating
    system carries out: the answer is the redirect, the path holds what was
    written, the row records the name, and the messages are the notice about
    the name, if any, and the count of the file, or, over a file that cannot
    be read, that there is no count. *)
Lemma profile_post_stored (username : pystr) (req : request) (w : world)
    (file : upload) :
  files req !! "limerick"%string = Some file →
  filename file ≠ [] →
  allowed_file (filename file) = true →
  os_write (path_join UPLOAD_FOLDER (username ++ of_string "_Limerick.txt"))
    (content file) (fs w) = Stored →
  ∃ text w', utf8_decode ignore (content file) = Ok text ∧
    profile_post username req w = (Ok (Redirect (ep_profile username)), w') ∧
    fs w' = <[path_join UPLOAD_FOLDER (username ++ of_string "_Limerick.txt")
              := written (fs w !! path_join UPLOAD_FOLDER
                                     (username ++ of_string "_Limerick.txt"))
                   (content file)]> (fs w) ∧
    table w' = update_where username
                 (set_file (username ++ of_string "_Limerick.txt")) (table w) ∧
    flashes w' = flashes w ++ filename_notice (filename file) ++
        [count_message
           match fs w !! path_join UPLOAD_FOLDER
                           (username ++ of_string "_Limerick.txt") with
           | Some Unreadable => None
           | _ => Some (count_words (universal_newlines text))
           end] ∧
    session w' = session w ∧ last_id w' = last_id w ∧
    (log w ++ [FsWrite (path_join UPLOAD_FOLDER
                          (username ++ of_string "_Limerick.txt"))])
      `prefix_of` log w'.
Proof.
  intros Hfile Hname Hallowed Hos.
  destruct (utf8_decode_ignore_ok (content file)) as [text Hok].
  exists text.
  set (stored := username ++ of_string "_Limerick.txt") in *.
  set (dest := path_join UPLOAD_FOLDER stored) in *.
  destruct (notice_of_run file w) as (w1 & Hw1 & Hfl1 & Ht1 & Hl1 & Hf1 & Hs1 & Hlog1).
  set (ws := snd (save file dest w1)).
  assert (Hws : save file dest w1 = (Ok tt, ws)).
  { subst ws. unfold save. run. by rewrite Hf1, Hos. }
  set (w2 := snd (update_user_file username stored ws)).
  assert (Hw2 : update_user_file username stored ws = (Ok tt, w2)) by done.
  assert (Hfacts2 : fs w2 = <[dest := written (fs w !! dest) (content file)]> (fs w) ∧
            table w2 = update_where username (set_file stored) (table w) ∧
            flashes w2 = flashes w1 ∧ session w2 = session w ∧
            last_id w2 = last_id w ∧
            log w2 = log w ++ [FsWrite dest; SqlUpdateFile username]).
  { subst w2 ws. unfold save. run. rewrite Hf1, Hos. simpl.
    rewrite ?Hf1, ?Ht1, ?Hs1, ?Hl1, ?Hlog1, <- ?app_assoc. done. }
  destruct Hfacts2 as (Hf2 & Ht2 & Hfl2 & Hs2 & Hl2 & Hlog2).
  clearbody w2.
  pose proof (get_word_count_cases (PyPath dest) w2 eq_refl)
    as (Hres & (Ht3 & Hl3 & Hf3) & Hfl3 & Hs3).
  pose proof (get_word_count_log (PyPath dest) w2) as Hlog3.
  simpl path_of in Hres. rewrite Hf2, lookup_insert_eq in Hres.
  destruct (get_word_count (PyPath dest) w2) as [r w3] eqn:Hcount.
  simpl in Hres, Ht3, Hl3, Hf3, Hfl3, Hs3, Hlog3.
  assert (Hr : r = Ok match fs w !! dest with
                      | Some Unreadable => None
                      | _ => Some (count_words (universal_newlines text))
                      end).
  { rewrite Hres. unfold written.
    destruct (fs w !! dest) as [[data|]|]; simpl; by rewrite ?Hok. }
  clear Hres. subst r.
  eexists. split; [done|]. split.
  - unfold profile_post. rewrite Hfile, bool_decide_eq_false_2 by done.
    rewrite Hallowed. simpl. fold stored dest. fold (notice_of file).
    rewrite (bind_ok _ _ _ _ _ Hw1), (bind_ok _ _ _ _ _ Hws).
    rewrite (bind_ok _ _ _ _ _ Hw2), (bind_ok _ _ _ _ _ Hcount).
    by rewrite count_message_run.
  - assert (Hpre : log w ++ [FsWrite dest] `prefix_of` log w3).
    { etrans; [|exact Hlog3]. rewrite Hlog2.
      change [FsWrite dest; SqlUpdateFile username]
        with ([FsWrite dest] ++ [SqlUpdateFile username]).
      rewrite app_assoc. by apply prefix_app_r. }
    simpl. rewrite ?Hf3, ?Ht3, ?Hfl3, ?Hs3, ?Hl3, ?Hfl2, ?Hfl1, <- ?app_assoc.
    done.
Qed.

(** An upload that passes the three checks and whose write the operating
    system refuses or breaks off: the [OSError] leaves the handler, the row
    is not touched, and of the files only the destination can have
    changed. *)
Lemma profile_post_failed (username : pystr) (req : request) (w : world)
    (file : upload) :
  files req !! "limerick"%string = Some file →
  filename file ≠ [] →
  allowed_file (filename file) = true →
  os_write (path_join UPLOAD_FOLDER (username ++ of_string "_Limerick.txt"))
    (content file) (fs w) ≠ Stored →
  ∃ w', profile_post username req w = (Raised OSError, w') ∧
    table w' = table w ∧ session w' = session w ∧ last_id w' = last_id w ∧
    (∀ p, p ≠ path_join UPLOAD_FOLDER (username ++ of_string "_Limerick.txt") →
          fs w' !! p = fs w !! p) ∧
    (os_write (path_join UPLOAD_FOLDER (username ++ of_string "_Limerick.txt"))
       (content file) (fs w) = OpenRefused → fs w' = fs w) ∧
    log w' = log w ++ [FsWrite (path_join UPLOAD_FOLDER
                                  (username ++ of_string "_Limerick.txt"))].
Proof.
  intros Hfile Hname Hallowed Hos.
  set (stored := username ++ of_string "_Limerick.txt") in *.
  set (dest := path_join UPLOAD_FOLDER stored) in *.
  destruct (notice_of_run file w) as (w1 & Hw1 & Hfl1 & Ht1 & Hl1 & Hf1 & Hs1 & Hlog1).
  unfold profile_post. rewrite Hfile, bool_decide_eq_false_2 by done.
  rewrite Hallowed. simpl. fold stored dest. fold (notice_of file).
  rewrite (bind_ok _ _ _ _ _ Hw1). unfold save. run. rewrite Hf1.
  destruct (os_write dest (content file) (fs w)) as [| |n] eqn:Hout; [done| |].
  - eexists. split; [reflexivity|]. simpl. rewrite Hlog1. by repeat split.
  - eexists. split; [reflexivity|]. simpl. rewrite ?Hf1, ?Hlog1.
    repeat split; try done.
    intros p Hp. by rewrite lookup_insert_ne.
Qed.

(** The same with a write that is carried out where nothing unreadable
    was: the path holds the bytes of the upload and the message is their
    count. *)
Lemma profile_post_accepted (username : pystr) (req : request) (w : world)
    (file : upload) :
  files req !! "limerick"%string = Some file →
  filename file ≠ [] →
  allowed_file (filename file) = true →
  stores (path_join UPLOAD_FOLDER (username ++ of_string "_Limerick.txt"))
    (content file) w →
  ∃ text w', utf8_decode ignore (content file) = Ok text ∧
    profile_post username req w = (Ok (Redirect (ep_profile username)), w') ∧
    fs w' = <[path_join UPLOAD_FOLDER (username ++ of_string "_Limerick.txt")
              := Readable (content file)]> (fs w) ∧
    table w' = update_where username
                 (set_file (username ++ of_string "_Limerick.txt")) (table w) ∧
    flashes w' = flashes w ++ filename_notice (filename file) ++
        [{| message := "File uploaded. Word count: "
                       +:+ pretty (count_words (universal_newlines text));
            category := "success" |}] ∧
    session w' = session w.
Proof.
  intros Hfile Hname Hallowed [Hos Hnode].
  destruct (profile_post_stored username req w file Hfile Hname Hallowed Hos)
    as (text & w' & Hok & Hrun & Hfs & Htab & Hfl & Hs & _).
  exists text, w'. repeat split; try done.
  - rewrite Hfs. unfold written.
    by destruct (fs w !! _) as [[data|]|].
  - rewrite Hfl. by destruct (fs w !! _) as [[data|]|].
Qed.

Lemma select_user_update (u : pystr) (f : users.row → users.row)
    (rows : list users.row) :
  (∀ r, users.username (f r) = users.username r) →
  select_user u (update_where u f rows) = f <$> select_user u rows.
Proof.
  intros Hkeep. unfold select_user, update_where, has_username.
  induction rows as [|r rows IH]; simpl; [done|].
  destruct (bool_decide (users.username r = u)) eqn:Hr.
  - by rewrite Hkeep, Hr.
  - by rewrite Hr.
Qed.

Lemma upload_rejected_from (username : pystr) (req : request) (w : world)
    (user : users.row) (msg : string) :
  method req = POST →
  session w !! "username"%string = Some username →
  username ≠ [] →
  select_user username (table w) = Some user →
  (∀ w0, profile_post username req w0 =
           (flash msg "error" >> ret (Redirect (ep_profile username))) w0) →
  upload_rejected username req w msg.
Proof.
  intros Hm Hs Hne Hsel Hpost. unfold upload_rejected.
  rewrite (profile_owner username req w user Hs Hne Hsel), Hm, Hpost.
  by run.
Qed.

(** C5: for an upload POST to [/profile/<username>] by the owner, whose row
    exists, the checks come in this order and the first that fails ends the
    request: no file part, then an empty file name (which the extension
    check would turn down as well), then a name whose text after the last
    dot does not lower to "txt".  A name passes the last check exactly when
    it ends in a dot followed by dot-free text that lowers to "txt";
    "notes.doc" does not pass and "Limerick.TXT" does.  An upload that
    passes goes on to the write of the file, and is stored when the
    operating system carries the write out. *)
Theorem upload_validation_order
    (username : pystr) (req : request) (w : world) (user : users.row) :
  lower_on_ascii →
  method req = POST →
  session w !! "username"%string = Some username →
  username ≠ [] →
  select_user username (table w) = Some user →
  (files req !! "limerick"%string = None →
     upload_rejected username req w "Please choose a file to upload.") ∧
  (∀ file, files req !! "limerick"%string = Some file →
     (filename file = [] →
        allowed_file (filename file) = false ∧
        upload_rejected username req w "No file selected.") ∧
     (filename file ≠ [] → allowed_file (filename file) = false →
        upload_rejected username req w "Only .txt files are allowed.") ∧
     (filename file ≠ [] → allowed_file (filename file) = true →
        upload_passed username req w ∧
        (stores (path_join UPLOAD_FOLDER (username ++ of_string "_Limerick.txt"))
           (content file) w →
         upload_stored username req w file))) ∧
  (∀ name, allowed_file name = true ↔
     ∃ stem ext, name = stem ++ dot :: ext ∧ contains dot ext = false ∧
                 str_lower ext = of_string "txt") ∧
  allowed_file (of_string "notes.doc") = false ∧
  allowed_file (of_string "Limerick.TXT") = true.
Proof.
  intros Hlow Hm Hs Hne Hsel.
  split; [|split; [|split; [apply allowed_file_spec | by apply allowed_file_examples]]].
  - intros Hnone. apply (upload_rejected_from _ _ _ user); try done.
    intros w0. by apply profile_post_no_part.
  - intros file Hfile. split; [|split].
    + intros Hempty. split; [by rewrite Hempty|].
      apply (upload_rejected_from _ _ _ user); try done.
      intros w0. by apply (profile_post_empty_name username req w0 file).
    + intros Hname Hbad. apply (upload_rejected_from _ _ _ user); try done.
      intros w0. by apply (profile_post_bad_extension username req w0 file).
    + intros Hname Hgood. unfold upload_passed, upload_stored.
      rewrite (profile_owner username req w user Hs Hne Hsel), Hm.
      set (w0 := snd (emit_event (SqlSelect username) w)).
      split.
      * change (log w ++ [SqlSelect username; FsWrite ?d])
          with (log w ++ [SqlSelect username] ++ [FsWrite d]).
        rewrite app_assoc. change (log w ++ [SqlSelect username]) with (log w0).
        destruct (os_write (path_join UPLOAD_FOLDER
                              (username ++ of_string "_Limerick.txt"))
                    (content file) (fs w0)) eqn:Hout.
        -- by destruct (profile_post_stored username req w0 file
                          Hfile Hname Hgood Hout)
             as (text & w' & _ & -> & _ & _ & _ & _ & _ & Hlog).
        -- destruct (profile_post_failed username req w0 file Hfile Hname Hgood)
             as (w' & -> & _ & _ & _ & _ & _ & Hlog); [by rewrite Hout|].
           simpl. by rewrite Hlog.
        -- destruct (profile_post_failed username req w0 file Hfile Hname Hgood)
             as (w' & -> & _ & _ & _ & _ & _ & Hlog); [by rewrite Hout|].
           simpl. by rewrite Hlog.
      * intros Hstores.
        destruct (profile_post_accepted username req w0 file
                    Hfile Hname Hgood Hstores)
          as (text & w' & _ & -> & Hfs & _).
        simpl. rewrite Hfs. split; [done | apply lookup_insert_eq].
Qed.


(** C9, amended: an uploaded file whose name is not empty and holds no dot
    is not allowed, and the owner's upload of it is turned down with the
    message of the extension check. *)
Theorem dotless_filename_rejected
    (username : pystr) (req : request) (w : world) (user : users.row)
    (file : upload) :
  method req = POST →
  session w !! "username"%string = Some username →
  username ≠ [] →
  select_user username (table w) = Some user →
  files req !! "limerick"%string = Some file →
  filename file ≠ [] →
  contains dot (filename file) = false →
  allowed_file (filename file) = false ∧
  upload_rejected username req w "Only .txt files are allowed.".
Proof.
  intros Hm Hs Hne Hsel Hfile Hname Hdot.
  pose proof (allowed_file_no_dot _ Hdot) as Hbad. split; [done|].
  apply (upload_rejected_from _ _ _ user); try done.
  intros w0. by apply (profile_post_bad_extension username req w0 file).
Qed.

(** *** The profile page *)

Lemma blank_strip (value : option pystr) :
  truthy (strip (or_empty value)) = true ↔ blank value = false.
Proof.
  unfold blank. pose proof (strip_empty_iff (or_empty value)) as Hiff.
  destruct (truthy (strip (or_empty value))), (forallb isspace (or_empty value));
    split; try done.
  - intros _. by apply Hiff.
  - intros _. by apply Hiff.
Qed.

Lemma filled_fields_present (user : users.row) :
  filled_fields user = fields_present user.
Proof.
  unfold filled_fields, fields_present. f_equal.
  apply list_filter_iff. intros value. apply blank_strip.
Qed.

Lemma fields_present_le (user : users.row) : (fields_present user ≤ 4)%nat.
Proof.
  unfold fields_present.
  etrans; [apply length_filter|]. done.
Qed.

(** The float computation of the percentage is exact on the five counts
    there can be. *)
Lemma completeness_of_percentage (n : nat) :
  (n ≤ 4)%nat → completeness_of n = percentage n.
Proof.
  intros Hn.
  destruct n as [|[|[|[|[|n]]]]]; [by vm_compute .. | lia].
Qed.

Lemma fields_present_count (user : users.row) (b1 b2 b3 b4 : bool) :
  blank (users.firstname user) = b1 → blank (users.lastname user) = b2 →
  blank (users.email user) = b3 → blank (users.address user) = b4 →
  fields_present user
    = (Nat.b2n (negb b1) + Nat.b2n (negb b2) + Nat.b2n (negb b3)
       + Nat.b2n (negb b4))%nat.
Proof.
  intros H1 H2 H3 H4. unfold fields_present.
  rewrite !filter_cons, filter_nil, H1, H2, H3, H4.
  destruct b1, b2, b3, b4; repeat case_decide; done.
Qed.

Lemma get_word_count_returns (a : path_arg) (w : world) :
  ∃ r w', get_word_count a w = (Ok r, w').
Proof.
  destruct (path_falsy a) eqn:Hf.
  - exists None, w. by apply get_word_count_falsy.
  - destruct (get_word_count_cases a w Hf) as [Hres _].
    destruct (get_word_count a w) as [r w']. simpl in Hres. subst r.
    destruct (fs w !! path_of a) as [[data|]|]; [|by eexists _, _..].
    destruct (utf8_decode_ignore_ok data) as [text ->]. by eexists _, _.
Qed.

Lemma profile_get_page (user : users.row) (w : world) :
  ∃ word_count,
    fst (profile_get user w)
      = Ok (Render (profile_html user word_count
                      (truthy (or_empty (users.limerick_filename user)))
                      (completeness_of (filled_fields user)))).
Proof.
  unfold profile_get.
  destruct (truthy (or_empty (users.limerick_filename user))).
  - destruct (get_word_count_returns
                (PyPath (path_join UPLOAD_FOLDER
                           (or_empty (users.limerick_filename user)))) w)
      as (r & w' & Hrun).
    exists r. by rewrite (bind_ok _ _ _ _ _ Hrun).
  - by exists None.
Qed.

(** C7: the completeness that the profile GET hands to its page is the
    integer part of (number of the fields firstname, lastname, email and
    address that are not blank) / 4 * 100, a blank field being one that is
    NULL, empty or whitespace only.  A row with only its email filled in has
    completeness 25, and a row whose four fields are blank, a single space
    included, has completeness 0. *)
Theorem profile_completeness
    (username : pystr) (req : request) (w : world) (user : users.row) :
  method req = GET →
  session w !! "username"%string = Some username →
  username ≠ [] →
  select_user username (table w) = Some user →
  (∃ word_count has_file,
     fst (profile username req w)
       = Ok (Render (profile_html user word_count has_file
                       (percentage (fields_present user))))) ∧
  completeness_of (filled_fields user) = percentage (fields_present user) ∧
  (∀ u : users.row,
     blank (users.firstname u) = true → blank (users.lastname u) = true →
     blank (users.email u) = false → blank (users.address u) = true →
     completeness_of (filled_fields u) = 25%Z) ∧
  (∀ u : users.row,
     blank (users.firstname u) = true → blank (users.lastname u) = true →
     blank (users.email u) = true → blank (users.address u) = true →
     completeness_of (filled_fields u) = 0%Z) ∧
  blank (Some (of_string " ")) = true ∧
  blank (Some (of_string "a@b.c")) = false.
Proof.
  intros Hm Hs Hne Hsel.
  assert (Hquot : ∀ u, completeness_of (filled_fields u)
                       = percentage (fields_present u)).
  { intros u. rewrite filled_fields_present.
    apply completeness_of_percentage, fields_present_le. }
  split; [|split; [apply Hquot | split; [|split; [|by vm_compute]]]].
  - rewrite (profile_owner username req w user Hs Hne Hsel), Hm.
    destruct (profile_get_page user (snd (emit_event (SqlSelect username) w)))
      as [word_count Hpage].
    exists word_count, (truthy (or_empty (users.limerick_filename user))).
    by rewrite Hpage, Hquot.
  - intros u H1 H2 H3 H4.
    by rewrite Hquot, (fields_present_count u _ _ _ _ H1 H2 H3 H4).
  - intros u H1 H2 H3 H4.
    by rewrite Hquot, (fields_present_count u _ _ _ _ H1 H2 H3 H4).
Qed.

(** *** The session names an existing user *)

Lemma select_user_update_is_Some (u v : pystr) (f : users.row → users.row)
    (rows : list users.row) :
  (∀ r, users.username (f r) = users.username r) →
  is_Some (select_user u (update_where v f rows)) ↔ is_Some (select_user u rows).
Proof.
  intros Hkeep. unfold select_user, update_where, has_username.
  induction rows as [|r rows IH]; simpl; [done|].
  assert (Hr : users.username (if bool_decide (users.username r = v) then f r else r)
               = users.username r) by (by case_bool_decide).
  rewrite Hr.
  destruct (bool_decide (users.username r = u)); [split; by eexists | exact IH].
Qed.

Lemma select_user_app (u : pystr) (rows : list users.row) (r : users.row) :
  is_Some (select_user u rows) ∨ users.username r = u →
  is_Some (select_user u (rows ++ [r])).
Proof.
  unfold select_user, has_username.
  induction rows as [|r' rows IH]; simpl.
  - intros [[? [=]]|Hr]. rewrite bool_decide_eq_true_2 by done. by eexists.
  - case_bool_decide; [by eexists | done].
Qed.

Lemma session_valid_same (w w' : world) :
  session w' = session w → table w' = table w →
  session_valid w → session_valid w'.
Proof. unfold session_valid. intros -> ->. done. Qed.

Lemma register_session_valid (salt : pystr) (req : request) (w : world) :
  session_valid w → session_valid (snd (register salt req w)).
Proof.
  intros Hval. unfold register.
  destruct (method req); [done|].
  destruct (negb _ || negb _); [by apply (session_valid_same w)|].
  run. destruct (select_user _ (table w)) eqn:Hsel; simpl.
  - by apply (session_valid_same w).
  - intros u Hu. simpl in *. apply select_user_app.
    rewrite lookup_insert_eq in Hu. injection Hu as <-. by right.
Qed.

Lemma login_session_valid (req : request) (w : world) :
  session_valid w → session_valid (snd (login req w)).
Proof.
  intros Hval. unfold login.
  destruct (method req); [done|].
  destruct (negb _ || negb _); [by apply (session_valid_same w)|].
  run. destruct (select_user _ (table w)) as [user|] eqn:Hsel; simpl;
    [|by apply (session_valid_same w)].
  destruct (negb _); simpl; [by apply (session_valid_same w)|].
  intros u Hu. simpl in *.
  apply lookup_insert_Some in Hu as [[_ <-]|[_ Hu]]; [by rewrite Hsel | by apply Hval].
Qed.

Lemma logout_session_valid (w : world) : session_valid (snd (logout w)).
Proof. intros u Hu. simpl in Hu. by rewrite lookup_empty in Hu. Qed.

Lemma session_valid_update (w w' : world) (v : pystr) (f : users.row → users.row) :
  (∀ r, users.username (f r) = users.username r) →
  session w' = session w → table w' = update_where v f (table w) →
  session_valid w → session_valid w'.
Proof.
  unfold session_valid. intros Hkeep -> -> Hval u Hu.
  apply select_user_update_is_Some; [done | by apply Hval].
Qed.

Lemma require_login_frame (w : world) :
  ∃ r w', require_login w = (Ok r, w') ∧
          session w' = session w ∧ table w' = table w.
Proof.
  unfold require_login. run.
  destruct (truthy (or_empty (session w !! "username"%string))); by eexists _, _.
Qed.

Lemma get_word_count_frame (a : path_arg) (w : world) :
  session (snd (get_word_count a w)) = session w ∧
  table (snd (get_word_count a w)) = table w.
Proof.
  destruct (path_falsy a) eqn:Hf.
  - by rewrite get_word_count_falsy.
  - by destruct (get_word_count_cases a w Hf) as (_ & (-> & _) & _ & ->).
Qed.

Lemma profile_get_frame (user : users.row) (w : world) :
  session (snd (profile_get user w)) = session w ∧
  table (snd (profile_get user w)) = table w.
Proof.
  unfold profile_get.
  destruct (truthy (or_empty (users.limerick_filename user))); [|done].
  set (a := PyPath _).
  destruct (get_word_count_returns a w) as (r & w' & Hrun).
  pose proof (get_word_count_frame a w) as Hframe.
  rewrite (bind_ok _ _ _ _ _ Hrun). by rewrite Hrun in Hframe.
Qed.

Lemma profile_post_frame (username : pystr) (req : request) (w : world) :
  session (snd (profile_post username req w)) = session w ∧
  (table (snd (profile_post username req w)) = table w ∨
   table (snd (profile_post username req w))
     = update_where username (set_file (username ++ of_string "_Limerick.txt"))
         (table w)).
Proof.
  destruct (files req !! "limerick"%string) as [file|] eqn:Hfile.
  - destruct (decide (filename file = [])) as [Hempty|Hname].
    + rewrite (profile_post_empty_name _ _ _ file Hfile Hempty). split; [done | by left].
    + destruct (allowed_file (filename file)) eqn:Hallowed.
      * destruct (os_write (path_join UPLOAD_FOLDER
                                (username ++ of_string "_Limerick.txt"))
                      (content file) (fs w)) eqn:Hout.
        -- destruct (profile_post_stored username req w file
                       Hfile Hname Hallowed Hout)
             as (text & w' & _ & -> & _ & Htab & _ & Hsess & _).
           split; [done | by right].
        -- destruct (profile_post_failed username req w file Hfile Hname Hallowed)
             as (w' & -> & Htab & Hsess & _); [by rewrite Hout|].
           split; [done | by left].
        -- destruct (profile_post_failed username req w file Hfile Hname Hallowed)
             as (w' & -> & Htab & Hsess & _); [by rewrite Hout|].
           split; [done | by left].
      * rewrite (profile_post_bad_extension _ _ _ file Hfile Hname Hallowed).
        split; [done | by left].
  - rewrite (profile_post_no_part _ _ _ Hfile). split; [done | by left].
Qed.

Lemma details_session_valid (req : request) (w : world) :
  session_valid w → session_valid (snd (details req w)).
Proof.
  intros Hval. unfold details.
  destruct (require_login_frame w) as (r & w' & Hrun & Hs & Ht).
  rewrite (bind_ok _ _ _ _ _ Hrun).
  assert (Hval' : session_valid w') by (by apply (session_valid_same w)).
  clear Hrun Hs Ht Hval w. destruct r as [username|]; [|done].
  run. destruct (select_user username (table w')); simpl;
    [|by apply (session_valid_same w')].
  destruct (method req); simpl; [by apply (session_valid_same w')|].
  by apply (session_valid_update w' _ username
              (set_details (strip (form_get req "firstname"))
                 (strip (form_get req "lastname")) (strip (form_get req "email"))
                 (strip (form_get req "address")))).
Qed.

Lemma profile_session_valid (username : pystr) (req : request) (w : world) :
  session_valid w → session_valid (snd (profile username req w)).
Proof.
  intros Hval. unfold profile.
  destruct (require_login_frame w) as (r & w' & Hrun & Hs & Ht).
  rewrite (bind_ok _ _ _ _ _ Hrun).
  assert (Hval' : session_valid w') by (by apply (session_valid_same w)).
  clear Hrun Hs Ht Hval w. destruct r as [current_user|]; [|done].
  destruct (negb _); [by apply (session_valid_same w')|].
  run. destruct (select_user username (table w')); simpl;
    [|by apply (session_valid_same w')].
  match goal with |- context [?h ?w0] =>
    match h with
    | match method req with _ => _ end => set (w1 := w0)
    end
  end.
  assert (Hval1 : session_valid w1) by (by apply (session_valid_same w')).
  clearbody w1. destruct (method req).
  - destruct (profile_get_frame r w1) as [Hs Ht].
    by apply (session_valid_same w1).
  - destruct (profile_post_frame username req w1) as [Hs [Ht|Ht]].
    + by apply (session_valid_same w1).
    + by apply (session_valid_update w1 _ username
                  (set_file (username ++ of_string "_Limerick.txt"))).
Qed.

Lemma download_session_valid (username : pystr) (w : world) :
  session_valid w → session_valid (snd (download username w)).
Proof.
  intros Hval. unfold download.
  destruct (require_login_frame w) as (r & w' & Hrun & Hs & Ht).
  rewrite (bind_ok _ _ _ _ _ Hrun).
  assert (Hval' : session_valid w') by (by apply (session_valid_same w)).
  clear Hrun Hs Ht Hval w. destruct r as [current_user|]; [|done].
  destruct (negb _); [by apply (session_valid_same w')|].
  run. destruct (select_user username (table w')) as [user|]; simpl;
    [|by apply (session_valid_same w')].
  destruct (truthy _); by apply (session_valid_same w').
Qed.

(** X1: every handler keeps the session naming a user who has a row: a session
    is bound only at a registration or a login that found the row, and no
    handler removes a row or renames one. *)
Theorem handlers_keep_session_valid (w : world) :
  session_valid w →
  (∀ salt req, session_valid (snd (register salt req w))) ∧
  (∀ req, session_valid (snd (login req w))) ∧
  session_valid (snd (logout w)) ∧
  (∀ req, session_valid (snd (details req w))) ∧
  (∀ username req, session_valid (snd (profile username req w))) ∧
  (∀ username, session_valid (snd (download username w))).
Proof.
  intros Hval. repeat split; intros.
  - by apply register_session_valid.
  - by apply login_session_valid.
  - apply logout_session_valid.
  - by apply details_session_valid.
  - by apply profile_session_valid.
  - by apply download_session_valid.
Qed.

End AppFacts.

(** ** The handlers on concrete requests *)

(** ** The string functions on concrete texts *)

Example strip_sample :
  strip (of_string "  a b  ") = of_string "a b" ∧
  strip (of_string "   ") = [] ∧
  strip [0xA0; 0x3000; 97; 0x2028] = [97].
Proof. by vm_compute. Qed.

Example split_sample :
  split (of_string "  a b  c ") = [of_string "a"; of_string "b"; of_string "c"] ∧
  split (of_string "   ") = [] ∧
  pieces_between_runs (of_string "  a b  c ")
    = [[]; of_string "a"; of_string "b"; of_string "c"; []].
Proof. by vm_compute. Qed.

Example rsplit1_sample :
  rsplit1 dot (of_string "archive.tar.gz")
    = [of_string "archive.tar"; of_string "gz"] ∧
  rsplit1 dot (of_string "README") = [of_string "README"] ∧
  rsplit1 dot (of_string "notes.") = [of_string "notes"; []].
Proof. by vm_compute. Qed.

Example utf8_decode_sample :
  utf8_decode ignore [Byte.xe2; Byte.x82; Byte.xac; Byte.x20; Byte.xc3; Byte.xa9]
    = Ok [0x20AC; 0x20; 0xE9] ∧
  utf8_decode strict [Byte.xe2; Byte.x82; Byte.xac] = Ok [0x20AC] ∧
  utf8_decode strict [Byte.xc0; Byte.x80] = Raised UnicodeDecodeError ∧
  utf8_decode ignore [Byte.xed; Byte.xa0; Byte.x80; Byte.x41] = Ok [0x41] ∧
  utf8_decode ignore [Byte.xf0; Byte.x9f; Byte.x98; Byte.x80] = Ok [0x1F600].
Proof. by vm_compute. Qed.

Example completeness_sample :
  map completeness_of [0; 1; 2; 3; 4]%nat = [0; 25; 50; 75; 100]%Z ∧
  completeness_of (filled_fields alice_row) = 25%Z ∧
  completeness_of (filled_fields spaces_row) = 0%Z.
Proof. by vm_compute. Qed.

Section Samples.
#[local] Existing Instance sample_externals.

Lemma login_failures_indistinguishable_witness :
  visible (login (alice_login "rabbit") fresh_world)
    = visible (login (alice_login "rabbit") (sample_world None)) ∧
  visible (login (alice_login "rabbit") fresh_world)
    = (Ok (Render login_html),
       with_flash fresh_world "Invalid username or password." "error",
       session fresh_world) ∧
  store_unchanged fresh_world (snd (login (alice_login "rabbit") fresh_world)) ∧
  store_unchanged (sample_world None)
    (snd (login (alice_login "rabbit") (sample_world None))).
Proof.
  apply (login_failures_indistinguishable (H := sample_externals)
           (alice_login "rabbit") fresh_world (sample_world None) alice_row);
    by vm_compute.
Defined.

(** A field of blanks is a missing field: the handler strips it before it
    looks at it. *)
Example login_blank_username_is_missing :
  method blank_username_login = POST ∧
  form_get blank_username_login "username" ≠ [] ∧
  form_get blank_username_login "password" ≠ [] ∧
  select_user (form_get blank_username_login "username")
    (table (sample_world None)) = None ∧
  visible (login (H := sample_externals) blank_username_login (sample_world None))
    = (Ok (Render login_html),
       with_flash (sample_world None) "Both fields are required." "error",
       session (sample_world None)) ∧
  flashes (snd (login (H := sample_externals) blank_username_login (sample_world None)))
    ≠ with_flash (sample_world None) "Invalid username or password." "error".
Proof. by vm_compute. Qed.

Lemma login_password_check_witness :
  (tagged (users.password alice_row) →
     (login_accepts (alice_login "wonderland") (sample_world None) ↔
      check_password_hash (users.password alice_row)
        (strip (form_get (alice_login "wonderland") "password")) = true)) ∧
  (¬ tagged (users.password alice_row) →
     (login_accepts (alice_login "wonderland") (sample_world None) ↔
      users.password alice_row
        = strip (form_get (alice_login "wonderland") "password"))) ∧
  (login_accepts (alice_login "wonderland") (sample_world None) ∨
   login_refuses (alice_login "wonderland") (sample_world None)).
Proof.
  apply (login_password_check (H := sample_externals)
           (alice_login "wonderland") (sample_world None) alice_row);
    by vm_compute.
Defined.

Lemma register_duplicate_username_witness :
  visible (register (H := sample_externals) (of_string "salt")
             (alice_register "secret") (sample_world None))
    = (Ok (Render register_html),
       with_flash (sample_world None)
         "That username is already taken. Try another." "error",
       session (sample_world None)) ∧
  select_user alice
    (table (snd (register (H := sample_externals) (of_string "salt")
                   (alice_register "secret") (sample_world None))))
    = Some alice_row.
Proof.
  pose proof (register_duplicate_username (H := sample_externals)
                (of_string "salt") (alice_register "secret") (sample_world None)
                alice_row) as Hdup.
  destruct Hdup as (_ & Hvis & _ & _ & Hrow); [by vm_compute ..|].
  split; [exact Hvis | exact Hrow].
Defined.

(** C2 as stated fails: a register POST for a username that has a row, sent
    with an empty password, runs no INSERT at all and is answered with the
    message that both fields are required. *)
Lemma register_taken_name_empty_password :
  method (alice_register "") = POST ∧
  select_user (form_get (alice_register "") "username")
    (table (sample_world None)) = Some alice_row ∧
  visible (register (H := sample_externals) (of_string "salt")
             (alice_register "") (sample_world None))
    = (Ok (Render register_html),
       with_flash (sample_world None)
         "Username and password are required." "error",
       session (sample_world None)) ∧
  log (snd (register (H := sample_externals) (of_string "salt")
              (alice_register "") (sample_world None))) = [].
Proof. by vm_compute. Qed.

Lemma sample_lower_on_ascii : lower_on_ascii.
Proof. intros s _. reflexivity. Qed.

Lemma cross_user_request_redirected_witness :
  fst (profile bob get (sample_world (Some alice)))
    = Ok (Redirect (ep_profile alice)) ∧
  fst (download bob (sample_world (Some alice)))
    = Ok (Redirect (ep_profile alice)).
Proof.
  destruct (cross_user_request_redirected (H := sample_externals)
              bob alice get (sample_world (Some alice)))
    as [(Hprofile & _) (Hdownload & _)]; [by vm_compute ..|].
  split; [exact Hprofile | exact Hdownload].
Defined.

Lemma upload_validation_order_witness :
  upload_rejected alice (upload_of readme_file) (sample_world (Some alice))
    "Only .txt files are allowed." ∧
  upload_rejected alice (upload_of unnamed_file) (sample_world (Some alice))
    "No file selected." ∧
  upload_rejected alice (post []) (sample_world (Some alice))
    "Please choose a file to upload." ∧
  upload_passed alice (upload_of poem_file) (sample_world (Some alice)) ∧
  upload_stored alice (upload_of poem_file) (sample_world (Some alice)) poem_file.
Proof.
  split; [|split; [|split]].
  - destruct (upload_validation_order (H := sample_externals) alice
                (upload_of readme_file) (sample_world (Some alice)) alice_row)
      as (_ & Hfile & _); [exact sample_lower_on_ascii | by vm_compute ..|].
    destruct (Hfile readme_file eq_refl) as (_ & Hbad & _).
    apply Hbad; by vm_compute.
  - destruct (upload_validation_order (H := sample_externals) alice
                (upload_of unnamed_file) (sample_world (Some alice)) alice_row)
      as (_ & Hfile & _); [exact sample_lower_on_ascii | by vm_compute ..|].
    destruct (Hfile unnamed_file eq_refl) as (Hempty & _).
    by apply Hempty.
  - destruct (upload_validation_order (H := sample_externals) alice
                (post []) (sample_world (Some alice)) alice_row)
      as (Hnone & _); [exact sample_lower_on_ascii | by vm_compute ..|].
    by apply Hnone.
  - destruct (upload_validation_order (H := sample_externals) alice
                (upload_of poem_file) (sample_world (Some alice)) alice_row)
      as (_ & Hfile & _); [exact sample_lower_on_ascii | by vm_compute ..|].
    destruct (Hfile poem_file eq_refl) as (_ & _ & Hgood).
    destruct Hgood as [Hpassed Hstored]; [by vm_compute ..|].
    split; [exact Hpassed | apply Hstored; by vm_compute].
Defined.


Lemma profile_completeness_witness :
  ∃ word_count has_file,
    fst (profile alice get (sample_world (Some alice)))
      = Ok (Render (profile_html alice_row word_count has_file 25)).
Proof.
  destruct (profile_completeness (H := sample_externals)
              alice get (sample_world (Some alice)) alice_row)
    as ((word_count & has_file & Hpage) & _); [by vm_compute ..|].
  exists word_count, has_file. exact Hpage.
Defined.

Lemma dotless_filename_rejected_witness :
  allowed_file (of_string "README") = false ∧
  upload_rejected alice (upload_of readme_file) (sample_world (Some alice))
    "Only .txt files are allowed.".
Proof.
  apply (dotless_filename_rejected (H := sample_externals)
           alice (upload_of readme_file) (sample_world (Some alice))
           alice_row readme_file); by vm_compute.
Defined.

(** C9 as stated fails: the empty file name holds no dot and is not
    allowed, and the owner's upload of it is answered with "No file
    selected.", the message of the check before the extension check. *)
Lemma empty_filename_other_message :
  files (upload_of unnamed_file) !! "limerick"%string = Some unnamed_file ∧
  contains dot (filename unnamed_file) = false ∧
  allowed_file (filename unnamed_file) = false ∧
  upload_rejected alice (upload_of unnamed_file) (sample_world (Some alice))
    "No file selected." ∧
  flashes (snd (profile alice (upload_of unnamed_file) (sample_world (Some alice))))
    ≠ with_flash (sample_world (Some alice)) "Only .txt files are allowed." "error".
Proof. by vm_compute. Qed.

Lemma get_word_count_total_witness :
  ∃ text,
    utf8_decode ignore
      [Byte.x68; Byte.x69; Byte.xff; Byte.x20; Byte.xc3; Byte.x79; Byte.x6f;
       Byte.xe2; Byte.x82] = Ok text ∧
    fst (get_word_count (PyPath garbled_path) garbled_world)
      = Ok (Some (count_words (universal_newlines text))).
Proof.
  apply (proj1 get_word_count_total (PyPath garbled_path) garbled_world);
    by vm_compute.
Defined.

Lemma garbled_file_counts_two_words :
  fst (get_word_count (PyPath garbled_path) garbled_world) = Ok (Some 2%nat).
Proof. by vm_compute. Qed.

Lemma sample_world_session_valid : session_valid (sample_world (Some alice)).
Proof.
  intros u Hu. simpl in Hu. rewrite lookup_singleton_eq in Hu.
  injection Hu as <-. by eexists.
Qed.

Lemma handlers_keep_session_valid_witness :
  session_valid (snd (profile alice (upload_of poem_file) (sample_world (Some alice)))) ∧
  session_valid (snd (register (of_string "salt") (alice_register "secret")
                        (sample_world (Some alice)))).
Proof.
  destruct (handlers_keep_session_valid (H := sample_externals)
              (sample_world (Some alice)) sample_world_session_valid)
    as (Hregister & _ & _ & _ & Hprofile & _).
  split; [apply Hprofile | apply Hregister].
Defined.

End Samples.

(** ** The credential store *)

Lemma select_user_Some (u : pystr) (rows : list users.row) (r : users.row) :
  select_user u rows = Some r → r ∈ rows ∧ users.username r = u.
Proof.
  unfold select_user, has_username. intros Hfind.
  apply find_some in Hfind as [Hin Hname].
  split; [by apply list_elem_of_In | by apply bool_decide_eq_true in Hname].
Qed.

Lemma select_user_None (u : pystr) (rows : list users.row) :
  select_user u rows = None ↔ u ∉ map users.username rows.
Proof.
  unfold select_user, has_username.
  induction rows as [|r rows IH]; simpl.
  - split; [intros _ Hin; by apply elem_of_nil in Hin | done].
  - rewrite not_elem_of_cons. case_bool_decide as Hr.
    + split; [done | by intros [Hne _]].
    + rewrite IH. split; [by intros ? | by intros [_ ?]].
Qed.

Lemma select_user_app_fresh (u v : pystr) (rows : list users.row) (r : users.row) :
  users.username r = v →
  select_user v rows = None →
  select_user u (rows ++ [r])
    = if bool_decide (u = v) then Some r else select_user u rows.
Proof.
  intros Hr Hnone. unfold select_user, has_username in *.
  induction rows as [|r' rows IH]; simpl in *.
  - rewrite Hr. by repeat case_bool_decide.
  - destruct (bool_decide (users.username r' = v)) eqn:Hv; [done|].
    apply bool_decide_eq_false in Hv. specialize (IH Hnone).
    destruct (bool_decide (users.username r' = u)) eqn:Hu'; [|exact IH].
    apply bool_decide_eq_true in Hu'.
    rewrite bool_decide_eq_false_2; [done | congruence].
Qed.

Lemma select_user_update_other (u v : pystr) (f : users.row → users.row)
    (rows : list users.row) :
  (∀ r, users.username (f r) = users.username r) →
  u ≠ v →
  select_user u (update_where v f rows) = select_user u rows.
Proof.
  intros Hkeep Hne. unfold select_user, update_where, has_username.
  induction rows as [|r rows IH]; simpl; [done|].
  destruct (bool_decide (users.username r = v)) eqn:Hv.
  - apply bool_decide_eq_true in Hv.
    rewrite Hkeep. rewrite !bool_decide_eq_false_2 by congruence. exact IH.
  - by rewrite IH.
Qed.

Lemma update_where_missing (u : pystr) (f : users.row → users.row)
    (rows : list users.row) :
  select_user u rows = None → update_where u f rows = rows.
Proof.
  unfold select_user, update_where, has_username.
  induction rows as [|r rows IH]; simpl; [done|].
  case_bool_decide; [done|]. intros Hnone. by rewrite IH.
Qed.

Lemma max_id_bound (rows : list users.row) (r : users.row) :
  r ∈ rows → (users.id r ≤ max_id rows)%Z.
Proof.
  unfold max_id. induction rows as [|r' rows IH]; simpl.
  - intros Hin. by apply elem_of_nil in Hin.
  - intros [->|Hin]%elem_of_cons; [lia|]. specialize (IH Hin). lia.
Qed.

(** X2: the store, for a username that has no row yet.  The two UPDATEs
    change nothing; the INSERT succeeds and gives the row an id above every
    id of the table and above the last one given; after it [get_user] finds
    exactly that row, finds for every other name what it found before, and a
    second INSERT of the name raises [IntegrityError] and changes nothing. *)
Theorem store_insert_lookup
    (u hashed other : pystr) (firstname lastname email address name : pystr)
    (w : world) :
  select_user u (table w) = None →
  table (snd (update_user_details u firstname lastname email address w)) = table w ∧
  table (snd (update_user_file u name w)) = table w ∧
  fst (insert_user u hashed w) = Ok tt ∧
  (∃ i, (last_id w < i)%Z ∧ (∀ r, r ∈ table w → (users.id r < i)%Z) ∧
        table (snd (insert_user u hashed w)) = table w ++ [new_row i u hashed] ∧
        fst (get_user u (snd (insert_user u hashed w)))
          = Ok (Some (new_row i u hashed))) ∧
  (∀ v, v ≠ u →
     fst (get_user v (snd (insert_user u hashed w))) = fst (get_user v w)) ∧
  fst (insert_user u other (snd (insert_user u hashed w))) = Raised IntegrityError ∧
  table (snd (insert_user u other (snd (insert_user u hashed w))))
    = table (snd (insert_user u hashed w)).
Proof.
  intros Hnone.
  unfold update_user_details, update_user_file. run.
  rewrite !update_where_missing by done. rewrite Hnone. simpl.
  set (i := (Z.max (last_id w) (max_id (table w)) + 1)%Z).
  assert (Hfind : ∀ v, select_user v (table w ++ [new_row i u hashed])
                       = if bool_decide (v = u) then Some (new_row i u hashed)
                         else select_user v (table w)).
  { intros v. by apply select_user_app_fresh. }
  repeat split; try done.
  - exists i. repeat split; try done.
    + lia.
    + intros r Hr. pose proof (max_id_bound _ _ Hr). lia.
    + fold (new_row i u hashed). rewrite Hfind. by rewrite bool_decide_eq_true_2.
  - intros v Hv. fold (new_row i u hashed). rewrite Hfind.
    by rewrite bool_decide_eq_false_2.
  - fold (new_row i u hashed). rewrite Hfind. by rewrite bool_decide_eq_true_2.
  - fold (new_row i u hashed). rewrite Hfind. by rewrite bool_decide_eq_true_2.
Qed.

Section MoreAppFacts.
Context `{Externals}.

(** *** Registration and the login after it *)

Lemma register_fresh_run (salt : pystr) (req : request) (w : world) :
  method req = POST →
  strip (form_get req "username") ≠ [] →
  strip (form_get req "password") ≠ [] →
  select_user (strip (form_get req "username")) (table w) = None →
  ∃ w', register salt req w = (Ok (Redirect ep_details), w') ∧
    table w' = table w ++
      [new_row (Z.max (last_id w) (max_id (table w)) + 1)
         (strip (form_get req "username"))
         (generate_password_hash salt (strip (form_get req "password")))] ∧
    session w' = <["username"%string := strip (form_get req "username")]> (session w) ∧
    flashes w' = with_flash w "Account created. Add your details below." "success" ∧
    fs w' = fs w ∧
    log w' = log w ++ [SqlInsert (strip (form_get req "username"))].
Proof.
  intros Hm Hu Hp Hnone. unfold register. rewrite Hm.
  apply truthy_true in Hu, Hp. rewrite Hu, Hp. run. rewrite Hnone. simpl.
  by eexists.
Qed.

(** X3: a register POST with a non-empty username and password, as the
    handler strips them, for a username that has no row: the answer is the
    redirect to the details page with the message of success, the session is
    bound to the username, and the table gains one row, after the others,
    with the username, the hash of the password, every detail column NULL
    and an id above all the ids there were; the rows there were, and the
    files, are as before. *)
Theorem register_fresh_username (salt : pystr) (req : request) (w : world) :
  method req = POST →
  strip (form_get req "username") ≠ [] →
  strip (form_get req "password") ≠ [] →
  select_user (strip (form_get req "username")) (table w) = None →
  visible (register salt req w)
    = (Ok (Redirect ep_details),
       with_flash w "Account created. Add your details below." "success",
       <["username"%string := strip (form_get req "username")]> (session w)) ∧
  (∃ i, (∀ r, r ∈ table w → (users.id r < i)%Z) ∧
        table (snd (register salt req w))
          = table w ++
            [new_row i (strip (form_get req "username"))
               (generate_password_hash salt (strip (form_get req "password")))]) ∧
  select_user (strip (form_get req "username")) (table (snd (register salt req w)))
    = Some (new_row (Z.max (last_id w) (max_id (table w)) + 1)
              (strip (form_get req "username"))
              (generate_password_hash salt (strip (form_get req "password")))) ∧
  fs (snd (register salt req w)) = fs w ∧
  log (snd (register salt req w))
    = log w ++ [SqlInsert (strip (form_get req "username"))].
Proof.
  intros Hm Hu Hp Hnone.
  destruct (register_fresh_run salt req w Hm Hu Hp Hnone)
    as (w' & -> & Htab & Hsess & Hfl & Hfs & Hlog).
  unfold visible. simpl. rewrite Htab, Hsess, Hfl, Hfs, Hlog.
  repeat split; try done.
  - eexists. split; [|done].
    intros r Hr. pose proof (max_id_bound _ _ Hr). lia.
  - rewrite (select_user_app_fresh _ (strip (form_get req "username"))) by done.
    by rewrite bool_decide_eq_true_2.
Qed.

(** X4: registration and login agree.  When the hash that [register]
    stores carries a recognized tag and verifies the password it was made
    from, a login POST with the same username and password, sent after the
    registration, is let through; and a login for that username with a
    password that the verification turns down is refused with the generic
    message. *)
Theorem register_then_login
    (salt : pystr) (req attempt : request) (w : world) :
  method req = POST →
  strip (form_get req "username") ≠ [] →
  strip (form_get req "password") ≠ [] →
  select_user (strip (form_get req "username")) (table w) = None →
  tagged (generate_password_hash salt (strip (form_get req "password"))) →
  check_password_hash
    (generate_password_hash salt (strip (form_get req "password")))
    (strip (form_get req "password")) = true →
  login_accepts req (snd (register salt req w)) ∧
  (method attempt = POST →
   strip (form_get attempt "username") = strip (form_get req "username") →
   strip (form_get attempt "password") ≠ [] →
   check_password_hash
     (generate_password_hash salt (strip (form_get req "password")))
     (strip (form_get attempt "password")) = false →
   login_refuses attempt (snd (register salt req w))).
Proof.
  intros Hm Hu Hp Hnone Htag Hcheck.
  destruct (register_fresh_run salt req w Hm Hu Hp Hnone)
    as (w' & -> & Htab & _).
  simpl.
  set (u := strip (form_get req "username")) in *.
  set (hashed := generate_password_hash salt (strip (form_get req "password"))) in *.
  set (row := new_row (Z.max (last_id w) (max_id (table w)) + 1) u hashed) in *.
  assert (Hrow : select_user u (table w') = Some row).
  { rewrite Htab, (select_user_app_fresh _ u) by done.
    by rewrite bool_decide_eq_true_2. }
  assert (Hvalid : ∀ candidate,
            password_valid hashed candidate = check_password_hash hashed candidate).
  { intros candidate. unfold password_valid.
    assert (startswith (of_string "pbkdf2:") hashed
            || startswith (of_string "scrypt:") hashed = true) as ->; [|done].
    rewrite orb_true_iff, !startswith_prefix. exact Htag. }
  split.
  - apply (login_right_password req w' row); try done. simpl. by rewrite Hvalid.
  - intros Hm' Hu' Hp' Hbad.
    apply (login_wrong_password attempt w' row); try done.
    + by rewrite Hu'.
    + by rewrite Hu'.
    + simpl. by rewrite Hvalid.
Qed.

(** *** Fields left blank *)

Lemma blank_stripped (value : option pystr) :
  blank value = true → strip (or_empty value) = [].
Proof.
  intros Hblank. destruct (strip (or_empty value)) eqn:Hs; [done|].
  assert (truthy (strip (or_empty value)) = true) as Ht by (by rewrite Hs).
  apply blank_strip in Ht. congruence.
Qed.

(** X5: a register or login POST in which the username or the password is
    missing from the form, empty, or made of whitespace only is answered
    with the form and the message that the fields are required; no statement
    is run and the session, the table and the files are as before. *)
Theorem blank_field_rejected (salt : pystr) (req : request) (w : world) :
  method req = POST →
  blank (form req !! "username"%string) = true ∨
  blank (form req !! "password"%string) = true →
  (visible (register salt req w)
     = (Ok (Render register_html),
        with_flash w "Username and password are required." "error", session w) ∧
   log (snd (register salt req w)) = log w ∧
   store_unchanged w (snd (register salt req w))) ∧
  (visible (login req w)
     = (Ok (Render login_html),
        with_flash w "Both fields are required." "error", session w) ∧
   log (snd (login req w)) = log w ∧
   store_unchanged w (snd (login req w))).
Proof.
  intros Hm Hblank. unfold register, login, form_get. rewrite Hm.
  assert (negb (truthy (strip (default [] (form req !! "username"%string))))
          || negb (truthy (strip (default [] (form req !! "password"%string))))
          = true) as ->.
  { destruct Hblank as [Hb|Hb]; apply blank_stripped in Hb;
      unfold or_empty in Hb; rewrite Hb; simpl; [done | apply orb_true_r]. }
  by run.
Qed.

(** *** The login gate *)

Lemma require_login_cases (w : world) :
  (∃ u, session w !! "username"%string = Some u ∧ u ≠ [] ∧
        require_login w = (Ok (Some u), w)) ∨
  (anonymous w ∧
   require_login w = (flash "Please log in to continue." "error" >> ret None) w).
Proof.
  unfold require_login, anonymous. run.
  destruct (session w !! "username"%string) as [[|c u]|]; simpl.
  - by right.
  - left. by exists (c :: u).
  - by right.
Qed.

Lemma require_login_anonymous (w : world) :
  anonymous w →
  require_login w = (flash "Please log in to continue." "error" >> ret None) w.
Proof.
  intros Hanon. destruct (require_login_cases w) as [(u & Hs & Hu & _)|[_ Hrun]];
    [|done].
  unfold anonymous in Hanon. rewrite Hs in Hanon. by destruct u.
Qed.

Lemma gate_closed (w : world) :
  anonymous w →
  require_login w
    = (Ok None, snd (flash "Please log in to continue." "error" w)).
Proof. intros Hanon. by rewrite (require_login_anonymous w Hanon). Qed.

Lemma gate_open (u : pystr) (w : world) :
  session w !! "username"%string = Some u → u ≠ [] →
  require_login w = (Ok (Some u), w).
Proof.
  intros Hs Hu. destruct (require_login_cases w) as [(u' & Hs' & _ & Hrun)|[Hanon _]].
  - rewrite Hs in Hs'. by injection Hs' as <-.
  - unfold anonymous in Hanon. rewrite Hs in Hanon. by destruct u.
Qed.

(** X6: when nobody is logged in (the session has no username, or an empty
    one), [details], [profile] and [download] answer with the redirect to
    the login page and the request to log in; they run no statement, touch
    no file and change neither the session nor the store, whatever the
    request and the path. *)
Theorem login_required (username : pystr) (req : request) (w : world) :
  anonymous w →
  sent_to_login w (details req w) ∧
  sent_to_login w (profile username req w) ∧
  sent_to_login w (download username w).
Proof.
  intros Hanon. pose proof (gate_closed w Hanon) as Hrun.
  unfold details, profile, download.
  rewrite !(bind_ok _ _ _ _ _ Hrun). by run.
Qed.

(** X7: [logout] empties the session, and with it the messages that were
    queued, queues the message of the logout and redirects to the login
    page; it runs no statement and leaves the store alone.  After it
    [details], [profile] and [download] send to the login page, for whatever
    user was logged in before. *)
Theorem logout_ends_session (username : pystr) (req : request) (w : world) :
  visible (logout w)
    = (Ok (Redirect ep_login),
       [{| message := "You are now logged out."; category := "success" |}],
       ∅) ∧
  log (snd (logout w)) = log w ∧
  store_unchanged w (snd (logout w)) ∧
  sent_to_login (snd (logout w)) (details req (snd (logout w))) ∧
  sent_to_login (snd (logout w)) (profile username req (snd (logout w))) ∧
  sent_to_login (snd (logout w)) (download username (snd (logout w))).
Proof.
  assert (Hanon : anonymous (snd (logout w))).
  { unfold anonymous. simpl. by rewrite lookup_empty. }
  pose proof (gate_closed _ Hanon) as Hrun.
  split; [done|]. split; [done|]. split; [done|].
  unfold details, profile, download.
  rewrite !(bind_ok _ _ _ _ _ Hrun). by run.
Qed.

(** *** A session without a row, and the download *)

Lemma select_after_gate (u : pystr) (w : world) :
  get_user u w = (Ok (select_user u (table w)), snd (emit_event (SqlSelect u) w)).
Proof. by run. Qed.

(** X8: a session that names a user without a row (the table was replaced
    behind the program).  [profile] and [details] answer with the redirect
    to the registration and their message that the account is not there,
    [download] with the redirect to the profile and the message that there
    is no file; each runs its SELECT and nothing else, so an upload sent
    this way stores nothing. *)
Theorem session_without_row (u : pystr) (req : request) (w : world) :
  session w !! "username"%string = Some u →
  u ≠ [] →
  select_user u (table w) = None →
  (visible (profile u req w)
     = (Ok (Redirect ep_register), with_flash w "Profile not found." "error",
        session w) ∧
   log (snd (profile u req w)) = log w ++ [SqlSelect u] ∧
   store_unchanged w (snd (profile u req w))) ∧
  (visible (details req w)
     = (Ok (Redirect ep_register),
        with_flash w "Account not found. Please register again." "error",
        session w) ∧
   log (snd (details req w)) = log w ++ [SqlSelect u] ∧
   store_unchanged w (snd (details req w))) ∧
  (visible (download u w)
     = (Ok (Redirect (ep_profile u)),
        with_flash w "No file available to download." "error", session w) ∧
   log (snd (download u w)) = log w ++ [SqlSelect u] ∧
   store_unchanged w (snd (download u w))).
Proof.
  intros Hs Hu Hnone. pose proof (gate_open u w Hs Hu) as Hrun.
  unfold profile, details, download.
  rewrite !(bind_ok _ _ _ _ _ Hrun).
  rewrite bool_decide_eq_true_2 by done. simpl.
  rewrite !(bind_ok _ _ _ _ _ (select_after_gate u w)), Hnone. by run.
Qed.

(** X9: the download of the owner, whose row exists.  When the row records
    a file name the answer is what [send_from_directory] gives for the
    upload folder and exactly that name, with no message queued; when it
    records none (NULL or the empty string) the answer is the redirect to
    the profile with the message that there is no file, and nothing is
    sent.  Neither way changes the store or the session. *)
Theorem download_own_file (u : pystr) (w : world) (user : users.row) :
  session w !! "username"%string = Some u →
  u ≠ [] →
  select_user u (table w) = Some user →
  (truthy (or_empty (users.limerick_filename user)) = true →
     visible (download u w)
       = (Ok (send_from_directory UPLOAD_FOLDER
                (or_empty (users.limerick_filename user)) (fs w)),
          flashes w, session w) ∧
     log (snd (download u w))
       = log w ++ [SqlSelect u;
                   FsSend UPLOAD_FOLDER (or_empty (users.limerick_filename user))]) ∧
  (truthy (or_empty (users.limerick_filename user)) = false →
     visible (download u w)
       = (Ok (Redirect (ep_profile u)),
          with_flash w "No file available to download." "error", session w) ∧
     log (snd (download u w)) = log w ++ [SqlSelect u]) ∧
  store_unchanged w (snd (download u w)).
Proof.
  intros Hs Hu Hsel. pose proof (gate_open u w Hs Hu) as Hrun.
  unfold download.
  rewrite !(bind_ok _ _ _ _ _ Hrun).
  rewrite bool_decide_eq_true_2 by done. simpl.
  rewrite !(bind_ok _ _ _ _ _ (select_after_gate u w)), Hsel.
  destruct (truthy (or_empty (users.limerick_filename user))); run.
  - split; [|split]; try done. split; [done|]. by rewrite <- app_assoc.
  - split; [done|]. split; done.
Qed.

(** *** The details *)

Lemma lstrip_head (s t : pystr) (c : N) :
  lstrip s = c :: t → isspace c = false.
Proof.
  induction s as [|d s IH]; simpl; [done|].
  destruct (isspace d) eqn:Hd; [exact IH|]. by intros [= <- _].
Qed.

(** Stripping a text neither makes it blank nor fills it. *)
Lemma strip_blank (s : pystr) :
  forallb isspace (strip s) = forallb isspace s.
Proof.
  destruct (forallb isspace s) eqn:Hall.
  - apply strip_empty_iff in Hall. by destruct (strip s).
  - assert (truthy (strip s) = true) as Ht.
    { destruct (truthy (strip s)) eqn:Ht; [done|].
      apply strip_empty_iff in Ht. congruence. }
    unfold strip, rstrip in *. rewrite forallb_rev. rewrite truthy_rev in Ht.
    destruct (lstrip (rev (lstrip s))) as [|c t] eqn:Hl; [done|].
    apply lstrip_head in Hl. simpl. by rewrite Hl.
Qed.

Lemma details_post_run (u : pystr) (req : request) (w : world) (user : users.row) :
  method req = POST →
  session w !! "username"%string = Some u →
  u ≠ [] →
  select_user u (table w) = Some user →
  ∃ w', details req w = (Ok (Redirect (ep_profile u)), w') ∧
    table w' = update_where u
                 (set_details (strip (form_get req "firstname"))
                    (strip (form_get req "lastname"))
                    (strip (form_get req "email"))
                    (strip (form_get req "address"))) (table w) ∧
    session w' = session w ∧
    flashes w' = with_flash w "Profile details saved." "success" ∧
    fs w' = fs w ∧ last_id w' = last_id w ∧
    log w' = log w ++ [SqlSelect u; SqlUpdateDetails u].
Proof.
  intros Hm Hs Hu Hsel. unfold details.
  rewrite (bind_ok _ _ _ _ _ (gate_open u w Hs Hu)).
  rewrite (bind_ok _ _ _ _ _ (select_after_gate u w)), Hsel, Hm.
  unfold update_user_details. run. eexists. split; [done|].
  simpl. repeat split; try done. by rewrite <- app_assoc.
Qed.

Lemma update_where_map {A} (g : users.row → A) (u : pystr)
    (f : users.row → users.row) (rows : list users.row) :
  (∀ r, g (f r) = g r) → map g (update_where u f rows) = map g rows.
Proof.
  intros Hkeep. unfold update_where.
  induction rows as [|r rows IH]; simpl; [done|].
  rewrite IH. by destruct (has_username u r); rewrite ?Hkeep.
Qed.

(** X10: a details POST of a logged-in user with a row writes the four
    fields of the form, stripped, into the row of the session's user and
    into no other: every other username is looked up as before, every row
    keeps its id, username, password and file name, and the files are
    untouched, whatever else the form holds.  The answer is the redirect to
    the user's profile with the message that the details were saved. *)
Theorem details_writes_own_row
    (u : pystr) (req : request) (w : world) (user : users.row) :
  method req = POST →
  session w !! "username"%string = Some u →
  u ≠ [] →
  select_user u (table w) = Some user →
  visible (details req w)
    = (Ok (Redirect (ep_profile u)),
       with_flash w "Profile details saved." "success", session w) ∧
  select_user u (table (snd (details req w)))
    = Some (set_details (strip (form_get req "firstname"))
              (strip (form_get req "lastname")) (strip (form_get req "email"))
              (strip (form_get req "address")) user) ∧
  (∀ v, v ≠ u →
     select_user v (table (snd (details req w))) = select_user v (table w)) ∧
  map credentials (table (snd (details req w))) = map credentials (table w) ∧
  map users.limerick_filename (table (snd (details req w)))
    = map users.limerick_filename (table w) ∧
  fs (snd (details req w)) = fs w ∧
  log (snd (details req w)) = log w ++ [SqlSelect u; SqlUpdateDetails u].
Proof.
  intros Hm Hs Hu Hsel.
  destruct (details_post_run u req w user Hm Hs Hu Hsel)
    as (w' & -> & Htab & Hsess & Hfl & Hfs & _ & Hlog).
  unfold visible. simpl. rewrite Htab, Hsess, Hfl, Hfs, Hlog.
  repeat split; try done.
  - by rewrite select_user_update, Hsel.
  - intros v Hv. by apply select_user_update_other.
  - by apply update_where_map.
  - by apply update_where_map.
Qed.

Lemma fields_present_submitted (req : request) (user : users.row) :
  fields_present
    (set_details (strip (form_get req "firstname"))
       (strip (form_get req "lastname")) (strip (form_get req "email"))
       (strip (form_get req "address")) user)
  = submitted_present req.
Proof.
  unfold fields_present, submitted_present, form_get. simpl.
  assert (Hkey : ∀ key, blank (Some (strip (default [] (form req !! key))))
                        = blank (form req !! key)).
  { intros key. unfold blank, or_empty. simpl. apply strip_blank. }
  rewrite !filter_cons, !filter_nil, !Hkey.
  repeat case_decide; done.
Qed.

(** X11: the completeness that the profile page shows right after a details
    POST is the percentage of the four submitted fields that are not blank
    (missing, empty or whitespace only): what was in the row before does not
    count. *)
Theorem details_then_completeness
    (u : pystr) (req page_req : request) (w : world) (user : users.row) :
  method req = POST →
  method page_req = GET →
  session w !! "username"%string = Some u →
  u ≠ [] →
  select_user u (table w) = Some user →
  ∃ word_count has_file,
    fst (profile u page_req (snd (details req w)))
      = Ok (Render (profile_html
                      (set_details (strip (form_get req "firstname"))
                         (strip (form_get req "lastname"))
                         (strip (form_get req "email"))
                         (strip (form_get req "address")) user)
                      word_count has_file
                      (percentage (submitted_present req)))).
Proof.
  intros Hm Hget Hs Hu Hsel.
  destruct (details_post_run u req w user Hm Hs Hu Hsel)
    as (w' & -> & Htab & Hsess & _).
  simpl.
  set (user' := set_details (strip (form_get req "firstname"))
                  (strip (form_get req "lastname")) (strip (form_get req "email"))
                  (strip (form_get req "address")) user).
  assert (Hsel' : select_user u (table w') = Some user').
  { by rewrite Htab, select_user_update, Hsel. }
  rewrite <- Hsess in Hs.
  rewrite (profile_owner u page_req w' user' Hs Hu Hsel'), Hget.
  destruct (profile_get_page user' (snd (emit_event (SqlSelect u) w')))
    as [word_count Hpage].
  exists word_count, (truthy (or_empty (users.limerick_filename user'))).
  rewrite Hpage, filled_fields_present.
  rewrite completeness_of_percentage by apply fields_present_le.
  unfold user'. by rewrite fields_present_submitted.
Qed.

(** *** Uploads, one after the other and side by side *)

Lemma text_of_decoded (data : list Byte.byte) (text : pystr) :
  utf8_decode ignore data = Ok text → text_of data = universal_newlines text.
Proof. unfold text_of. by intros ->. Qed.

(** The whole run of [profile] for an upload that passes the checks and
    that the operating system stores. *)
Lemma upload_run (u : pystr) (req : request) (w : world) (user : users.row)
    (file : upload) :
  method req = POST →
  session w !! "username"%string = Some u →
  u ≠ [] →
  select_user u (table w) = Some user →
  files req !! "limerick"%string = Some file →
  filename file ≠ [] →
  allowed_file (filename file) = true →
  stores (destination UPLOAD_FOLDER u) (content file) w →
  ∃ w', profile u req w = (Ok (Redirect (ep_profile u)), w') ∧
    fs w' = <[destination UPLOAD_FOLDER u := Readable (content file)]> (fs w) ∧
    table w' = update_where u (set_file (stored_name u)) (table w) ∧
    session w' = session w ∧
    flashes w' = flashes w ++ filename_notice (filename file) ++
        [{| message := "File uploaded. Word count: "
                       +:+ pretty (count_words (text_of (content file)));
            category := "success" |}].
Proof.
  intros Hm Hs Hu Hsel Hfile Hname Hgood Hstores.
  rewrite (profile_owner u req w user Hs Hu Hsel), Hm.
  destruct (profile_post_accepted u req (snd (emit_event (SqlSelect u) w))
              file Hfile Hname Hgood Hstores)
    as (text & w' & Hok & -> & Hfs & Htab & Hfl & Hsess).
  exists w'. rewrite (text_of_decoded _ _ Hok). by simpl in *.
Qed.

(** The run of [profile] for an upload that passes the checks, whatever the
    operating system makes of the write: of the files only the destination
    can have changed, and of the table only the file name of the user. *)
Lemma upload_frame (u : pystr) (req : request) (w : world) (user : users.row)
    (file : upload) :
  method req = POST →
  session w !! "username"%string = Some u →
  u ≠ [] →
  select_user u (table w) = Some user →
  files req !! "limerick"%string = Some file →
  filename file ≠ [] →
  allowed_file (filename file) = true →
  (∀ p, p ≠ destination UPLOAD_FOLDER u →
     fs (snd (profile u req w)) !! p = fs w !! p) ∧
  (table (snd (profile u req w)) = table w ∨
   table (snd (profile u req w))
     = update_where u (set_file (stored_name u)) (table w)).
Proof.
  intros Hm Hs Hu Hsel Hfile Hname Hgood.
  rewrite (profile_owner u req w user Hs Hu Hsel), Hm.
  set (w0 := snd (emit_event (SqlSelect u) w)).
  destruct (os_write (path_join UPLOAD_FOLDER (u ++ of_string "_Limerick.txt"))
              (content file) (fs w0)) eqn:Hout.
  - destruct (profile_post_stored u req w0 file Hfile Hname Hgood Hout)
      as (text & w' & _ & -> & Hfs & Htab & _).
    simpl. rewrite Hfs, Htab. split; [|by right].
    intros p Hp. by apply lookup_insert_ne.
  - destruct (profile_post_failed u req w0 file Hfile Hname Hgood)
      as (w' & -> & Htab & _ & _ & Hfs & _); [by rewrite Hout|].
    simpl. rewrite Htab. split; [|by left].
    intros p Hp. by apply Hfs.
  - destruct (profile_post_failed u req w0 file Hfile Hname Hgood)
      as (w' & -> & Htab & _ & _ & Hfs & _); [by rewrite Hout|].
    simpl. rewrite Htab. split; [|by left].
    intros p Hp. by apply Hfs.
Qed.

Lemma stored_name_truthy (u : pystr) : truthy (stored_name u) = true.
Proof. by destruct u. Qed.

Lemma readable_count (a : path_arg) (w : world) (data : list Byte.byte) :
  path_falsy a = false →
  fs w !! path_of a = Some (Readable data) →
  ∃ w', get_word_count a w = (Ok (Some (count_words (text_of data))), w') ∧
        store_unchanged w w' ∧ flashes w' = flashes w ∧ session w' = session w.
Proof.
  intros Hf Hnode. destruct (utf8_decode_ignore_ok data) as [text Hok].
  rewrite (text_of_decoded _ _ Hok).
  by apply (get_word_count_readable a w data).
Qed.

(** The page of a user whose row names the stored file, when the file is at
    its path. *)
Lemma view_stored_file (u : pystr) (req : request) (w : world)
    (user : users.row) (data : list Byte.byte) :
  method req = GET →
  session w !! "username"%string = Some u →
  u ≠ [] →
  select_user u (table w) = Some user →
  users.limerick_filename user = Some (stored_name u) →
  fs w !! destination UPLOAD_FOLDER u = Some (Readable data) →
  fst (profile u req w)
    = Ok (Render (profile_html user (Some (count_words (text_of data))) true
                    (completeness_of (filled_fields user)))).
Proof.
  intros Hm Hs Hu Hsel Hname Hnode.
  rewrite (profile_owner u req w user Hs Hu Hsel), Hm.
  unfold profile_get. rewrite Hname. simpl. rewrite stored_name_truthy.
  destruct (readable_count (PyPath (destination UPLOAD_FOLDER u))
              (snd (emit_event (SqlSelect u) w)) data eq_refl Hnode)
    as (w' & Hcount & _).
  unfold destination in Hcount. by rewrite (bind_ok _ _ _ _ _ Hcount).
Qed.

(** X12: after an upload that passes the checks and that the operating
    system stores, the profile page of the user shows the row with the
    canonical file name, [has_file] true and the word count of the uploaded
    bytes, the same count the upload flashed; the completeness is what it
    was; and the download answers with what [send_from_directory] gives for
    the upload folder and the canonical name. *)
Theorem upload_then_view_and_download
    (u : pystr) (req page_req : request) (w : world) (user : users.row)
    (file : upload) :
  method req = POST →
  method page_req = GET →
  session w !! "username"%string = Some u →
  u ≠ [] →
  select_user u (table w) = Some user →
  files req !! "limerick"%string = Some file →
  filename file ≠ [] →
  allowed_file (filename file) = true →
  stores (destination UPLOAD_FOLDER u) (content file) w →
  last (flashes (snd (profile u req w)))
    = Some {| message := "File uploaded. Word count: "
                         +:+ pretty (count_words (text_of (content file)));
              category := "success" |} ∧
  fst (profile u page_req (snd (profile u req w)))
    = Ok (Render (profile_html (set_file (stored_name u) user)
                    (Some (count_words (text_of (content file)))) true
                    (completeness_of (filled_fields user)))) ∧
  fst (download u (snd (profile u req w)))
    = Ok (send_from_directory UPLOAD_FOLDER (stored_name u)
            (<[destination UPLOAD_FOLDER u := Readable (content file)]> (fs w))).
Proof.
  intros Hm Hget Hs Hu Hsel Hfile Hname Hgood Hstores.
  destruct (upload_run u req w user file Hm Hs Hu Hsel Hfile Hname Hgood Hstores)
    as (w' & -> & Hfs & Htab & Hsess & Hfl).
  simpl.
  assert (Hsel' : select_user u (table w') = Some (set_file (stored_name u) user)).
  { by rewrite Htab, select_user_update, Hsel. }
  assert (Hs' : session w' !! "username"%string = Some u) by (by rewrite Hsess).
  split; [|split].
  - rewrite Hfl, app_assoc. apply last_snoc.
  - rewrite (view_stored_file u page_req w' (set_file (stored_name u) user)
               (content file)); try done.
    rewrite Hfs. apply lookup_insert_eq.
  - unfold download.
    rewrite (bind_ok _ _ _ _ _ (gate_open u w' Hs' Hu)).
    rewrite bool_decide_eq_true_2 by done. simpl.
    rewrite (bind_ok _ _ _ _ _ (select_after_gate u w')), Hsel'. simpl.
    rewrite stored_name_truthy. run. by rewrite Hfs.
Qed.

Lemma update_where_twice (u : pystr) (f : users.row → users.row)
    (rows : list users.row) :
  (∀ r, users.username (f r) = users.username r) →
  (∀ r, f (f r) = f r) →
  update_where u f (update_where u f rows) = update_where u f rows.
Proof.
  intros Hkeep Hidem. unfold update_where, has_username.
  induction rows as [|r rows IH]; simpl; [done|].
  rewrite IH. f_equal.
  destruct (bool_decide (users.username r = u)) eqn:Hr; [|by rewrite Hr].
  by rewrite Hkeep, Hr, Hidem.
Qed.

(** X13: a second upload of the same user replaces the first, when both
    pass the checks and the operating system stores both.  After the two,
    the file at the user's path holds the bytes of the second upload alone,
    the file system is the one before the two with those bytes at that path,
    the table is as the first upload left it, and the count flashed last is
    the count of the second file. *)
Theorem second_upload_replaces_first
    (u : pystr) (req1 req2 : request) (w : world) (user : users.row)
    (file1 file2 : upload) :
  method req1 = POST →
  method req2 = POST →
  session w !! "username"%string = Some u →
  u ≠ [] →
  select_user u (table w) = Some user →
  files req1 !! "limerick"%string = Some file1 →
  filename file1 ≠ [] →
  allowed_file (filename file1) = true →
  stores (destination UPLOAD_FOLDER u) (content file1) w →
  files req2 !! "limerick"%string = Some file2 →
  filename file2 ≠ [] →
  allowed_file (filename file2) = true →
  stores (destination UPLOAD_FOLDER u) (content file2) (snd (profile u req1 w)) →
  fs (snd (profile u req2 (snd (profile u req1 w))))
    !! destination UPLOAD_FOLDER u = Some (Readable (content file2)) ∧
  fs (snd (profile u req2 (snd (profile u req1 w))))
    = <[destination UPLOAD_FOLDER u := Readable (content file2)]> (fs w) ∧
  table (snd (profile u req2 (snd (profile u req1 w))))
    = table (snd (profile u req1 w)) ∧
  last (flashes (snd (profile u req2 (snd (profile u req1 w)))))
    = Some {| message := "File uploaded. Word count: "
                         +:+ pretty (count_words (text_of (content file2)));
              category := "success" |}.
Proof.
  intros Hm1 Hm2 Hs Hu Hsel Hfile1 Hname1 Hgood1 Hst1 Hfile2 Hname2 Hgood2.
  destruct (upload_run u req1 w user file1 Hm1 Hs Hu Hsel Hfile1 Hname1 Hgood1 Hst1)
    as (w1 & -> & Hfs1 & Htab1 & Hsess1 & _).
  simpl. intros Hst2.
  assert (Hsel1 : select_user u (table w1) = Some (set_file (stored_name u) user)).
  { by rewrite Htab1, select_user_update, Hsel. }
  assert (Hs1 : session w1 !! "username"%string = Some u) by (by rewrite Hsess1).
  destruct (upload_run u req2 w1 _ file2 Hm2 Hs1 Hu Hsel1 Hfile2 Hname2 Hgood2 Hst2)
    as (w2 & -> & Hfs2 & Htab2 & _ & Hfl2).
  simpl. rewrite Hfs2, Htab2, Hfl2, Hfs1, Htab1.
  split; [apply lookup_insert_eq|]. split; [apply insert_insert_eq|].
  split; [by apply update_where_twice|].
  rewrite app_assoc. apply last_snoc.
Qed.

Lemma destination_relative (base u : pystr) :
  contains slash u = false →
  destination base u = base ++ slash :: stored_name u.
Proof.
  unfold destination, path_join, stored_name.
  destruct u as [|c u]; [done|].
  intros Hc. change (contains slash (c :: u))
    with ((slash =? c) || contains slash u) in Hc.
  apply orb_false_iff in Hc as [Hc _].
  change ((c :: u) ++ of_string "_Limerick.txt")
    with (c :: (u ++ of_string "_Limerick.txt")).
  cbv iota beta. by rewrite N.eqb_sym, Hc.
Qed.

Lemma destination_injective (base u v : pystr) :
  contains slash u = false → contains slash v = false →
  destination base u = destination base v → u = v.
Proof.
  intros Hu Hv. rewrite !destination_relative by done.
  intros Heq. apply app_inv_head in Heq. injection Heq as Heq.
  unfold stored_name in Heq. by apply app_inv_tail in Heq.
Qed.

(** X14: an accepted upload writes one path and one row.  Every path other
    than the user's own is as before; so is the stored file of every other
    user, since two usernames without a slash (the route admits no other)
    never share a path; and every other username is looked up as before. *)
Theorem upload_touches_own_file_only
    (u : pystr) (req : request) (w : world) (user : users.row) (file : upload) :
  method req = POST →
  session w !! "username"%string = Some u →
  u ≠ [] →
  select_user u (table w) = Some user →
  files req !! "limerick"%string = Some file →
  filename file ≠ [] →
  allowed_file (filename file) = true →
  (∀ p, p ≠ destination UPLOAD_FOLDER u →
     fs (snd (profile u req w)) !! p = fs w !! p) ∧
  (∀ v, v ≠ u → contains slash u = false → contains slash v = false →
     destination UPLOAD_FOLDER v ≠ destination UPLOAD_FOLDER u ∧
     fs (snd (profile u req w)) !! destination UPLOAD_FOLDER v
       = fs w !! destination UPLOAD_FOLDER v) ∧
  (∀ v, v ≠ u →
     select_user v (table (snd (profile u req w))) = select_user v (table w)) ∧
  map credentials (table (snd (profile u req w))) = map credentials (table w).
Proof.
  intros Hm Hs Hu Hsel Hfile Hname Hgood.
  destruct (upload_frame u req w user file Hm Hs Hu Hsel Hfile Hname Hgood)
    as [Hfs Htab].
  split; [done|]. split; [|split].
  - intros v Hv Hsu Hsv.
    assert (destination UPLOAD_FOLDER v ≠ destination UPLOAD_FOLDER u) as Hne.
    { intros Heq. apply Hv. by apply (destination_injective UPLOAD_FOLDER). }
    split; [done|]. by apply Hfs.
  - intros v Hv. destruct Htab as [->| ->]; [done|].
    by apply select_user_update_other.
  - destruct Htab as [->| ->]; [done|]. by apply update_where_map.
Qed.

(** *** What no request does to the accounts *)

Lemma table_step_credentials (w w' : world) :
  table_step w w' →
  map credentials (table w) `prefix_of` map credentials (table w').
Proof.
  intros [->|[(v & f & Hkeep & ->)|(r & -> & _)]].
  - done.
  - by rewrite update_where_map.
  - rewrite map_app. by apply prefix_app_r.
Qed.

Lemma table_step_unique (w w' : world) :
  table_step w w' → table_unique w → table_unique w'.
Proof.
  unfold table_unique.
  intros [->|[(v & f & Hkeep & ->)|(r & -> & Hnone & Hid)]] [Hnames Hids].
  - done.
  - rewrite !update_where_map; [done | |].
    + intros r. specialize (Hkeep r). unfold credentials in Hkeep. congruence.
    + intros r. specialize (Hkeep r). unfold credentials in Hkeep. congruence.
  - rewrite !map_app. simpl. split.
    + apply NoDup_app. split; [done|]. split; [|apply NoDup_singleton].
      intros name Hin ->%list_elem_of_singleton.
      by apply select_user_None in Hnone.
    + apply NoDup_app. split; [done|]. split; [|apply NoDup_singleton].
      intros i Hin ->%list_elem_of_singleton.
      apply list_elem_of_fmap in Hin as (r0 & Heq & Hr0).
      specialize (Hid r0 Hr0). lia.
Qed.

Lemma table_step_same (w w' : world) : table w' = table w → table_step w w'.
Proof. by left. Qed.

Lemma register_table_step (salt : pystr) (req : request) (w : world) :
  table_step w (snd (register salt req w)).
Proof.
  unfold register.
  destruct (method req); [by left|].
  destruct (negb _ || negb _); [by left|].
  run. destruct (select_user _ (table w)) eqn:Hsel; simpl; [by left|].
  right. right. eexists. split; [done|]. simpl. split; [done|].
  intros r0 Hr0. pose proof (max_id_bound _ _ Hr0). lia.
Qed.

Lemma login_store (req : request) (w : world) :
  store_unchanged w (snd (login req w)).
Proof.
  unfold login.
  destruct (method req); [done|].
  destruct (negb _ || negb _); [done|].
  run. destruct (select_user _ (table w)); [|done].
  by destruct (negb _).
Qed.

Lemma gate_store (w : world) :
  ∃ r w', require_login w = (Ok r, w') ∧ store_unchanged w w' ∧
          session w' = session w.
Proof.
  destruct (require_login_cases w) as [(u & _ & _ & ->)|[_ ->]]; by eexists _, _.
Qed.

Lemma details_table_step (req : request) (w : world) :
  table_step w (snd (details req w)).
Proof.
  unfold details.
  destruct (gate_store w) as (r & w' & Hrun & (Ht & _) & _).
  rewrite (bind_ok _ _ _ _ _ Hrun). unfold table_step. rewrite <- Ht.
  clear Hrun Ht. destruct r as [username|]; [|by left].
  rewrite (bind_ok _ _ _ _ _ (select_after_gate username w')).
  destruct (select_user username (table w')); [|by left].
  destruct (method req); [by left|].
  unfold update_user_details. run. right. left.
  eexists _, _. split; [|reflexivity]. done.
Qed.

Lemma profile_table_step (username : pystr) (req : request) (w : world) :
  table_step w (snd (profile username req w)).
Proof.
  unfold profile.
  destruct (gate_store w) as (r & w' & Hrun & (Ht & _) & _).
  rewrite (bind_ok _ _ _ _ _ Hrun). unfold table_step. rewrite <- Ht.
  clear Hrun Ht. destruct r as [current_user|]; [|by left].
  destruct (negb _); [by left|].
  rewrite (bind_ok _ _ _ _ _ (select_after_gate username w')).
  destruct (select_user username (table w')) as [user|]; [|by left].
  destruct (method req).
  - destruct (profile_get_frame user (snd (emit_event (SqlSelect username) w')))
      as [_ Ht]. by left.
  - destruct (profile_post_frame username req
                (snd (emit_event (SqlSelect username) w'))) as [_ [Ht|Ht]].
    + by left.
    + right. left. eexists _, _. split; [|exact Ht]. done.
Qed.

Lemma download_store (username : pystr) (w : world) :
  store_unchanged w (snd (download username w)).
Proof.
  unfold download.
  destruct (gate_store w) as (r & w' & Hrun & (Ht & Hl & Hf) & _).
  rewrite (bind_ok _ _ _ _ _ Hrun). unfold store_unchanged.
  rewrite <- Ht, <- Hl, <- Hf.
  clear Hrun Ht Hl Hf. destruct r as [current_user|]; [|done].
  destruct (negb _); [done|].
  rewrite (bind_ok _ _ _ _ _ (select_after_gate username w')).
  destruct (select_user username (table w')) as [user|]; [|done].
  by destruct (truthy _).
Qed.

Lemma served_table_step (w w' : world) : served w w' → table_step w w'.
Proof.
  intros [salt req|req|req| |username req|username].
  - apply register_table_step.
  - apply details_table_step.
  - apply table_step_same, login_store.
  - by apply table_step_same.
  - apply profile_table_step.
  - apply table_step_same, download_store.
Qed.

Lemma served_session_valid (w w' : world) :
  served w w' → session_valid w → session_valid w'.
Proof.
  intros [salt req|req|req| |username req|username] Hval.
  - by apply register_session_valid.
  - by apply details_session_valid.
  - by apply login_session_valid.
  - apply logout_session_valid.
  - by apply profile_session_valid.
  - by apply download_session_valid.
Qed.

(** X15: over any sequence of requests, whatever they are, no account is
    lost or altered: the ids, usernames and passwords of the rows at the
    start are, in order, those of the first rows at the end.  If usernames
    and ids were pairwise different at the start they are at the end, and if
    the session named a user with a row at the start it does at the end. *)
Theorem accounts_are_permanent (w w' : world) :
  rtc served w w' →
  map credentials (table w) `prefix_of` map credentials (table w') ∧
  (table_unique w → table_unique w') ∧
  (session_valid w → session_valid w').
Proof.
  induction 1 as [w|w w1 w' Hstep _ (IHcred & IHuniq & IHsess)].
  - done.
  - apply served_table_step in Hstep as Htab.
    split; [|split].
    + etrans; [by apply table_step_credentials | done].
    + intros Huniq. apply IHuniq. by apply (table_step_unique w).
    + intros Hval. apply IHsess. by apply (served_session_valid w).
Qed.

(** *** Requests that only read *)

Lemma profile_get_store (user : users.row) (w : world) :
  store_unchanged w (snd (profile_get user w)) ∧
  session (snd (profile_get user w)) = session w.
Proof.
  unfold profile_get.
  destruct (truthy (or_empty (users.limerick_filename user))); [|done].
  set (a := PyPath _).
  destruct (get_word_count_returns a w) as (r & w' & Hrun).
  destruct (get_word_count_cases a w eq_refl) as (_ & Hstore & _ & Hsess).
  rewrite (bind_ok _ _ _ _ _ Hrun). by rewrite Hrun in Hstore, Hsess.
Qed.

Lemma store_unchanged_trans (w1 w2 w3 : world) :
  store_unchanged w1 w2 → store_unchanged w2 w3 → store_unchanged w1 w3.
Proof. unfold store_unchanged. intros (-> & -> & ->) (-> & -> & ->). done. Qed.

(** X16: the requests that only read.  A login, successful or not, a
    logout and a download leave the table, the id sequence and the files as
    they were, and so does every GET of the registration, details and
    profile pages, which also leaves the session as it was. *)
Theorem reading_requests_write_nothing
    (salt username : pystr) (req : request) (w : world) :
  store_unchanged w (snd (login req w)) ∧
  store_unchanged w (snd (logout w)) ∧
  store_unchanged w (snd (download username w)) ∧
  (method req = GET →
     register salt req w = (Ok (Render register_html), w) ∧
     login req w = (Ok (Render login_html), w) ∧
     (store_unchanged w (snd (details req w)) ∧
      session (snd (details req w)) = session w) ∧
     (store_unchanged w (snd (profile username req w)) ∧
      session (snd (profile username req w)) = session w)).
Proof.
  split; [apply login_store|]. split; [done|]. split; [apply download_store|].
  intros Hget. unfold register, login, details, profile. rewrite Hget.
  split; [done|]. split; [done|].
  destruct (gate_store w) as (r & w' & Hrun & Hstore & Hsess).
  rewrite !(bind_ok _ _ _ _ _ Hrun). rewrite <- Hsess.
  split.
  - destruct r as [current_user|]; [|done].
    rewrite (bind_ok _ _ _ _ _ (select_after_gate current_user w')).
    by destruct (select_user current_user (table w')).
  - destruct r as [current_user|]; [|done].
    destruct (negb _); [done|].
    rewrite (bind_ok _ _ _ _ _ (select_after_gate username w')).
    destruct (select_user username (table w')) as [user|]; [|done].
    destruct (profile_get_store user (snd (emit_event (SqlSelect username) w')))
      as [Hstore' Hsess'].
    split; [|done].
    apply (store_unchanged_trans w w'); [done|].
    by apply (store_unchanged_trans w' (snd (emit_event (SqlSelect username) w'))).
Qed.

(** *** The names that are allowed *)

Lemma ascii_lower_letter (c lower : N) :
  in_range 97 122 lower = true →
  ascii_lower c = lower ↔ c = lower ∨ c + 32 = lower.
Proof.
  unfold ascii_lower, in_range. intros Hl.
  apply andb_true_iff in Hl as [Hl1 Hl2].
  apply N.leb_le in Hl1, Hl2.
  destruct ((65 <=? c) && (c <=? 90)) eqn:Hc.
  - apply andb_true_iff in Hc as [Hc1 Hc2]. apply N.leb_le in Hc1, Hc2.
    split; [by right | intros [?|?]; lia].
  - split; [by left|]. intros [?|?]; [done|].
    apply andb_false_iff in Hc as [Hc|Hc]; apply N.leb_gt in Hc; lia.
Qed.

Lemma lower_txt (ext : pystr) :
  map ascii_lower ext = of_string "txt" ↔ txt_variant ext.
Proof.
  unfold txt_variant. split.
  - destruct ext as [|e1 [|e2 [|e3 [|e4 ext]]]]; try done.
    intros [= H1 H2 H3]. exists e1, e2, e3. split; [done|].
    apply (ascii_lower_letter e1 116) in H1; [|done].
    apply (ascii_lower_letter e2 120) in H2; [|done].
    apply (ascii_lower_letter e3 116) in H3; [|done].
    repeat split; [destruct H1|destruct H2|destruct H3]; (by left) || (right; lia).
  - intros (e1 & e2 & e3 & -> & [-> | ->] & [-> | ->] & [-> | ->]); done.
Qed.

Lemma is_ascii_app (a b : pystr) :
  is_ascii (a ++ b) = is_ascii a && is_ascii b.
Proof. unfold is_ascii. apply forallb_app. Qed.

(** X20: which ASCII names pass [allowed_file], given that [str.lower]
    lowers ASCII text letter by letter: exactly those that end in a dot
    followed by [txt] in any mix of upper and lower case.  The name may be
    the bare [.txt], and only what follows the last dot counts. *)
Theorem allowed_ascii_names (name : pystr) :
  lower_on_ascii →
  is_ascii name = true →
  allowed_file name = true ↔ ∃ stem ext, name = stem ++ dot :: ext ∧ txt_variant ext.
Proof.
  intros Hlow Hascii. rewrite allowed_file_spec. split.
  - intros (stem & ext & -> & _ & Hext). exists stem, ext. split; [done|].
    rewrite is_ascii_app in Hascii. apply andb_true_iff in Hascii as [_ Hascii].
    simpl in Hascii.
    rewrite Hlow in Hext by done. by apply lower_txt.
  - intros (stem & ext & -> & Hext). exists stem, ext. split; [done|].
    rewrite is_ascii_app in Hascii. apply andb_true_iff in Hascii as [_ Hascii].
    simpl in Hascii.
    rewrite Hlow by done. split; [|by apply lower_txt].
    destruct Hext as (e1 & e2 & e3 & -> & [-> | ->] & [-> | ->] & [-> | ->]); done.
Qed.

(** *** The one exception that leaves a handler *)

Lemma profile_post_raises (username : pystr) (req : request) (w : world) :
  (fst (profile_post username req w) = Raised OSError ↔
   ∃ file, files req !! "limerick"%string = Some file ∧
           filename file ≠ [] ∧ allowed_file (filename file) = true ∧
           os_write (destination UPLOAD_FOLDER username) (content file) (fs w)
             ≠ Stored) ∧
  ((∃ r, fst (profile_post username req w) = Ok r) ∨
   (fst (profile_post username req w) = Raised OSError ∧
    table (snd (profile_post username req w)) = table w)).
Proof.
  unfold destination, stored_name.
  destruct (files req !! "limerick"%string) as [file|] eqn:Hfile.
  - destruct (decide (filename file = [])) as [Hempty|Hname].
    + rewrite (profile_post_empty_name _ _ _ file Hfile Hempty). simpl.
      split; [|left; by eexists].
      split; [done|]. intros (f & [= <-] & Hf & _). done.
    + destruct (allowed_file (filename file)) eqn:Hallowed.
      * destruct (os_write (path_join UPLOAD_FOLDER
                              (username ++ of_string "_Limerick.txt"))
                    (content file) (fs w)) eqn:Hout.
        -- destruct (profile_post_stored username req w file
                       Hfile Hname Hallowed Hout) as (text & w' & _ & -> & _).
           simpl. split; [|left; by eexists].
           split; [done|]. intros (f & [= <-] & _ & _ & Hf). by rewrite Hout in Hf.
        -- destruct (profile_post_failed username req w file Hfile Hname Hallowed)
             as (w' & -> & Htab & _); [by rewrite Hout|].
           simpl. split; [|by right].
           split; [|done]. intros _. exists file. by rewrite Hout.
        -- destruct (profile_post_failed username req w file Hfile Hname Hallowed)
             as (w' & -> & Htab & _); [by rewrite Hout|].
           simpl. split; [|by right].
           split; [|done]. intros _. exists file. by rewrite Hout.
      * rewrite (profile_post_bad_extension _ _ _ file Hfile Hname Hallowed).
        simpl. split; [|left; by eexists].
        split; [done|]. intros (f & [= <-] & _ & Hf & _). congruence.
  - rewrite (profile_post_no_part _ _ _ Hfile). simpl.
    split; [|left; by eexists].
    split; [done|]. intros (f & [=] & _).
Qed.

Lemma profile_get_returns (user : users.row) (w : world) :
  ∃ r w', profile_get user w = (Ok r, w').
Proof.
  unfold profile_get.
  destruct (truthy (or_empty (users.limerick_filename user))); [|by eexists _, _].
  set (a := PyPath _).
  destruct (get_word_count_returns a w) as (r & w' & Hrun).
  rewrite (bind_ok _ _ _ _ _ Hrun). by eexists _, _.
Qed.

Lemma profile_raises (username : pystr) (req : request) (w : world) :
  (fst (profile username req w) = Raised OSError ↔ write_fails username req w) ∧
  ((∃ r, fst (profile username req w) = Ok r) ∨
   (fst (profile username req w) = Raised OSError ∧
    table (snd (profile username req w)) = table w)).
Proof.
  unfold write_fails.
  destruct (require_login_cases w) as [(u & Hs & Hu & _)|[Hanon _]].
  - destruct (decide (u = username)) as [->|Hother].
    + destruct (select_user username (table w)) as [user|] eqn:Hsel.
      * rewrite (profile_owner username req w user Hs Hu Hsel).
        destruct (method req) eqn:Hm.
        -- destruct (profile_get_returns user
                       (snd (emit_event (SqlSelect username) w)))
             as (r & w' & ->).
           simpl. split; [|left; by eexists].
           split; [done|]. by intros (_ & _ & _ & [=] & _).
        -- destruct (profile_post_raises username req
                       (snd (emit_event (SqlSelect username) w))) as [Hiff Hcases].
           split; [|exact Hcases].
           rewrite Hiff. simpl. split; [|by intros (_ & _ & _ & _ & Hfile)].
           intros Hfile. by repeat split.
      * unfold profile.
        rewrite (bind_ok _ _ _ _ _ (gate_open username w Hs Hu)).
        rewrite bool_decide_eq_true_2 by done. simpl.
        rewrite (bind_ok _ _ _ _ _ (select_after_gate username w)), Hsel.
        simpl. split; [|left; by eexists].
        split; [done|]. by intros (_ & _ & [? [=]] & _).
    + rewrite (profile_other username u req w Hs Hu Hother). simpl.
      split; [|left; by eexists].
      split; [done|]. intros (Hs' & _). rewrite Hs in Hs'. by injection Hs'.
  - unfold profile. rewrite (bind_ok _ _ _ _ _ (gate_closed w Hanon)). simpl.
    split; [|left; by eexists].
    split; [done|]. intros (Hs & Hu & _).
    unfold anonymous in Hanon. rewrite Hs in Hanon. by destruct username.
Qed.


(** X22: a row that names a file which is not there, or which does not
    open.  The profile page is rendered all the same, with no word count and
    with [has_file] still true: the flag follows the row, not the disk. *)
Theorem missing_file_degrades
    (u : pystr) (req : request) (w : world) (user : users.row) :
  method req = GET →
  session w !! "username"%string = Some u →
  u ≠ [] →
  select_user u (table w) = Some user →
  truthy (or_empty (users.limerick_filename user)) = true →
  (fs w !! path_join UPLOAD_FOLDER (or_empty (users.limerick_filename user)) = None ∨
   fs w !! path_join UPLOAD_FOLDER (or_empty (users.limerick_filename user))
     = Some Unreadable) →
  fst (profile u req w)
    = Ok (Render (profile_html user None true
                    (completeness_of (filled_fields user)))) ∧
  flashes (snd (profile u req w)) = flashes w.
Proof.
  intros Hm Hs Hu Hsel Hname Hnode.
  rewrite (profile_owner u req w user Hs Hu Hsel), Hm.
  unfold profile_get. rewrite Hname.
  set (a := PyPath _).
  destruct (get_word_count_returns a (snd (emit_event (SqlSelect u) w)))
    as (r & w' & Hrun).
  destruct (get_word_count_cases a (snd (emit_event (SqlSelect u) w)) eq_refl)
    as (Hres & _ & Hfl & _).
  rewrite Hrun in Hres, Hfl. simpl in Hres, Hfl.
  rewrite (bind_ok _ _ _ _ _ Hrun). simpl.
  assert (r = None) as ->.
  { destruct Hnode as [Hnode|Hnode]; subst a; simpl in Hres;
      rewrite Hnode in Hres; by injection Hres. }
  done.
Qed.

End MoreAppFacts.

(** ** The algebra of the word count *)

Lemma split_from_app_space (cur a b : pystr) (c : N) :
  isspace c = true →
  length (split_from cur (a ++ c :: b))
  = (length (split_from cur a) + length (split_from [] b))%nat.
Proof.
  intros Hc. revert cur. induction a as [|d a IH]; intros cur; simpl.
  - rewrite Hc. by destruct (truthy cur).
  - destruct (isspace d); [|apply IH].
    destruct (truthy cur); simpl; by rewrite IH.
Qed.

Lemma split_from_none (cur s : pystr) :
  length (split_from cur s) = 0%nat ↔ cur = [] ∧ forallb isspace s = true.
Proof.
  revert cur. induction s as [|c s IH]; intros cur; simpl.
  - destruct cur; simpl; split; try done. by intros [? _].
  - destruct (isspace c); simpl.
    + destruct cur as [|d cur]; simpl.
      * rewrite IH. split; by intros [_ ?].
      * split; [done | by intros [? _]].
    + rewrite IH. split; [by intros [? _] | by intros [_ ?]].
Qed.

Lemma split_from_bound (cur s : pystr) :
  (2 * length (split_from cur s)
   ≤ length s + (if truthy cur then 2 else 1))%nat.
Proof.
  revert cur. induction s as [|c s IH]; intros cur; simpl.
  - destruct cur; simpl; lia.
  - destruct (isspace c).
    + specialize (IH []). destruct cur; simpl in *; lia.
    + specialize (IH (c :: cur)). destruct cur; simpl in *; lia.
Qed.

(** X17: the word count is zero exactly for a text of whitespace only (the
    empty text included); it adds up over a whitespace character, the count
    of [a], a whitespace character and [b] being the count of [a] plus the
    count of [b]; and a text of [n] characters has at most [(n + 1) / 2]
    words. *)
Theorem count_words_algebra :
  (∀ s, count_words s = 0%nat ↔ forallb isspace s = true) ∧
  (∀ a b c, isspace c = true →
     count_words (a ++ c :: b) = (count_words a + count_words b)%nat) ∧
  (∀ s, (2 * count_words s ≤ length s + 1)%nat).
Proof.
  split; [|split].
  - intros s. rewrite count_words_split. unfold split.
    rewrite split_from_none. split; [by intros [_ ?] | done].
  - intros a b c Hc. rewrite !count_words_split. unfold split.
    by apply split_from_app_space.
  - intros s. rewrite count_words_split. apply (split_from_bound [] s).
Qed.

(** ** Line endings and valid UTF-8 *)

Lemma universal_newlines_other (c : N) (s : pystr) :
  c ≠ 13 → universal_newlines (c :: s) = c :: universal_newlines s.
Proof.
  intros Hc. destruct c as [|p]; [done|].
  do 4 (try destruct p as [p|p|]); try done.
Qed.

Lemma universal_newlines_cr (s : pystr) :
  universal_newlines (13 :: s)
  = 10 :: universal_newlines (match s with 10 :: s' => s' | _ => s end).
Proof.
  destruct s as [|d s]; [done|].
  destruct d as [|p]; [done|].
  do 4 (try destruct p as [p|p|]); try done.
Qed.

Lemma split_from_newlines (n : nat) (s cur : pystr) :
  (length s ≤ n)%nat →
  length (split_from cur (universal_newlines s)) = length (split_from cur s).
Proof.
  revert s cur. induction n as [|n IH]; intros s cur Hn.
  - destruct s; [done | simpl in Hn; lia].
  - destruct s as [|c s]; [done|]. simpl in Hn.
    destruct (decide (c = 13)) as [->|Hc].
    + rewrite universal_newlines_cr.
      change (split_from cur (13 :: s))
        with (if truthy cur then rev cur :: split_from [] s else split_from [] s).
      change (split_from cur (10 :: ?t))
        with (if truthy cur then rev cur :: split_from [] t else split_from [] t).
      assert (Hrest : length (split_from []
                        (universal_newlines
                           (match s with 10 :: s' => s' | _ => s end)))
                      = length (split_from [] s)).
      { destruct s as [|d s]; [done|].
        destruct (decide (d = 10)) as [->|Hd].
        - rewrite IH by (simpl in Hn; lia). done.
        - assert (match d :: s with 10 :: s' => s' | _ => d :: s end = d :: s) as ->.
          { destruct d as [|p]; [done|].
            do 4 (try destruct p as [p|p|]); try done. }
          apply IH. simpl in *. lia. }
      destruct (truthy cur); simpl; by rewrite Hrest.
    + rewrite universal_newlines_other by done. simpl.
      destruct (isspace c); [|apply IH; lia].
      destruct (truthy cur); simpl; rewrite IH by lia; done.
Qed.

Lemma count_words_newlines (s : pystr) :
  count_words (universal_newlines s) = count_words s.
Proof.
  rewrite !count_words_split. unfold split.
  by apply (split_from_newlines (length s)).
Qed.

Lemma utf8_scan_strict_ignore (bs : list N) (st : option pending) (text : pystr) :
  utf8_scan strict st bs = Ok text → utf8_scan ignore st bs = Ok text.
Proof.
  revert st text. induction bs as [|b bs IH]; intros st text; simpl.
  - by destruct st.
  - assert (Hbegin : ∀ t, utf8_begin strict (fun st' => utf8_scan strict st' bs) b = Ok t →
                          utf8_begin ignore (fun st' => utf8_scan ignore st' bs) b = Ok t).
    { intros t. unfold utf8_begin. destruct (utf8_lead b); simpl; [|apply IH|done].
      destruct (utf8_scan strict None bs) as [t'|] eqn:Hs; [|done].
      by rewrite (IH None t' Hs). }
    destruct st as [p|]; [|apply Hbegin].
    destruct (in_range (lo p) (hi p) b); [|done].
    destruct (need p) as [|[|n]]; try apply IH.
    + destruct (utf8_scan strict None bs) as [t'|] eqn:Hs; [|done].
      by rewrite (IH None t' Hs).
    + destruct (utf8_scan strict None bs) as [t'|] eqn:Hs; [|done].
      by rewrite (IH None t' Hs).
Qed.

Lemma utf8_scan_ascii (bs : list N) :
  Forall (fun b => b < 128) bs → utf8_scan strict None bs = Ok bs.
Proof.
  induction 1 as [|b bs Hb _ IH]; simpl; [done|].
  unfold utf8_begin, utf8_lead. apply N.ltb_lt in Hb. rewrite Hb. simpl.
  by rewrite IH.
Qed.

(** X18: for a file that opens and holds valid UTF-8, [get_word_count]
    returns the word count of the text the bytes encode: on such a file the
    [ignore] handler drops nothing, and the translation of line endings that
    reading in text mode applies does not change the count.  For a file of
    ASCII bytes this is the count of the bytes taken as characters. *)
Theorem valid_file_counts_its_text
    (a : path_arg) (w : world) (data : list Byte.byte) (text : pystr) :
  path_falsy a = false →
  fs w !! path_of a = Some (Readable data) →
  utf8_decode strict data = Ok text →
  fst (get_word_count a w) = Ok (Some (count_words text)) ∧
  (Forall (fun b => Byte.to_N b < 128) data → text = map Byte.to_N data).
Proof.
  intros Hf Hnode Hstrict.
  pose proof (utf8_scan_strict_ignore _ _ _ Hstrict) as Hignore.
  split.
  - destruct (get_word_count_readable a w data text Hf Hnode Hignore)
      as (w' & -> & _).
    simpl. by rewrite count_words_newlines.
  - intros Hascii. unfold utf8_decode in Hstrict.
    rewrite utf8_scan_ascii in Hstrict; [by injection Hstrict|].
    by apply Forall_fmap.
Qed.


(** ** The schema at startup *)

Lemma same_identifier_folded (a b : string) :
  same_identifier a b = true ↔ folded a = folded b.
Proof. unfold same_identifier, folded. apply bool_decide_eq_true. Qed.

Lemma existsb_same_identifier (name : string) (names : list string) :
  existsb (same_identifier name) names = true ↔ folded name ∈ map folded names.
Proof.
  rewrite existsb_exists, list_elem_of_fmap. split.
  - intros (m & Hin & Hsame). exists m.
    split; [by apply same_identifier_folded | by apply list_elem_of_In].
  - intros (m & Heq & Hin). exists m.
    split; [by apply list_elem_of_In | by apply same_identifier_folded].
Qed.

Lemma case_clash_reflect (columns : list coldef) (names : list string) :
  case_clashb columns names = true ↔ case_clash columns names.
Proof.
  unfold case_clashb, case_clash. rewrite existsb_exists. split.
  - intros ([name ty] & Hin & Hc). simpl in Hc.
    apply andb_true_iff in Hc as [Hnot Hsame].
    apply negb_true_iff, bool_decide_eq_false in Hnot.
    exists name. split; [|done].
    apply list_elem_of_fmap. exists (name, ty). split; [done|].
    by apply list_elem_of_In.
  - intros (name & Hin & Hnot & Hsame).
    apply list_elem_of_fmap in Hin as ([name' ty] & -> & Hin).
    exists (name', ty). split; [by apply list_elem_of_In|]. simpl in *.
    rewrite Hsame, andb_true_r. by apply negb_true_iff, bool_decide_eq_false.
Qed.

(** With keys that differ even without regard to case, and no clash with
    the table, the loop adds the missing columns in order, after those it
    has added before. *)
Lemma add_missing_done (columns0 : list coldef) (items added : list coldef) :
  NoDup (map folded (map fst added ++ map fst items)) →
  (∀ c, c ∈ added → existsb (same_identifier (fst c)) (map fst columns0) = false) →
  case_clashb items (map fst columns0) = false →
  add_missing (map fst columns0) items (Some (columns0 ++ added))
  = Done (Some (columns0 ++ added ++ missing_columns items (map fst columns0))).
Proof.
  revert added.
  induction items as [|[name ty] items IH]; intros added Hnodup Hadded Hclash.
  - simpl. unfold missing_columns. by rewrite filter_nil, app_nil_r.
  - simpl in Hclash. apply orb_false_iff in Hclash as [Hhead Hclash].
    simpl. unfold missing_columns. rewrite filter_cons. simpl.
    case_bool_decide as Hin.
    + rewrite decide_False by (by intros ?).
      apply IH; [|done|done].
      rewrite map_app in *. simpl in Hnodup.
      apply NoDup_app in Hnodup as (H1 & H2 & H3).
      apply NoDup_app. split; [done|]. split; [|by apply NoDup_cons in H3 as [_ ?]].
      intros x Hx Hx'. apply (H2 x Hx). by right.
    + rewrite decide_True by done.
      simpl in Hhead. rewrite ?bool_decide_eq_false_2 in Hhead by done.
      simpl in Hhead.
      assert (Hfresh : existsb (same_identifier name) (map fst (columns0 ++ added))
                       = false).
      { rewrite map_app, existsb_app, Hhead. simpl.
        destruct (existsb (same_identifier name) (map fst added)) eqn:Hex; [|done].
        exfalso. apply existsb_same_identifier in Hex.
        rewrite map_app in Hnodup. simpl in Hnodup.
        apply NoDup_app in Hnodup as (_ & H2 & _).
        apply (H2 (folded name) Hex). by left. }
      unfold alter_add_column. rewrite Hfresh.
      replace ((columns0 ++ added) ++ [(name, ty)])
        with (columns0 ++ (added ++ [(name, ty)])) by apply app_assoc.
      rewrite (IH (added ++ [(name, ty)])).
      * do 3 f_equal. unfold missing_columns. by rewrite <- app_assoc.
      * rewrite (map_app fst), !map_app. rewrite !map_app in Hnodup.
        simpl in Hnodup |- *. rewrite <- !app_assoc. exact Hnodup.
      * intros c [Hc| ->%list_elem_of_singleton]%elem_of_app; [by apply Hadded | done].
      * done.
Qed.

Lemma add_missing_clash (names : list string) (items : list coldef)
    (catalog : option (list coldef)) :
  (∀ m, m ∈ names → m ∈ table_info catalog) →
  case_clashb items names = true →
  add_missing names items catalog = OperationalError.
Proof.
  revert catalog. induction items as [|[name ty] items IH]; intros catalog Hsub Hclash;
    [done|].
  simpl in *. case_bool_decide as Hin.
  - simpl in Hclash. by apply IH.
  - simpl in Hclash.
    destruct (existsb (same_identifier name) names) eqn:Hex; simpl in Hclash.
    + destruct catalog as [columns|]; [|done]. simpl.
      assert (existsb (same_identifier name) (map fst columns) = true) as ->; [|done].
      apply existsb_exists in Hex as (m & Hm & Hsame).
      apply existsb_exists. exists m. split; [|done].
      apply list_elem_of_In, Hsub. by apply list_elem_of_In.
    + destruct (alter_add_column name ty catalog) as [catalog'|] eqn:Halter; [|done].
      apply IH; [|done].
      destruct catalog as [columns|]; [|done]. simpl in Halter.
      destruct (existsb (same_identifier name) (map fst columns)); [done|].
      inversion Halter; subst. simpl.
      intros m Hm. rewrite map_app. apply elem_of_app. left. by apply Hsub.
Qed.

Lemma add_missing_all_there (names : list string) (items : list coldef)
    (catalog : option (list coldef)) :
  (∀ c, c ∈ items → fst c ∈ names) →
  add_missing names items catalog = Done catalog.
Proof.
  induction items as [|[name ty] items IH]; intros Hall; [done|].
  simpl. rewrite bool_decide_eq_true_2.
  - apply IH. intros c Hc. apply Hall. by right.
  - apply (Hall (name, ty)). by left.
Qed.

Lemma optional_keys_distinct : NoDup (map folded (map fst OPTIONAL_COLUMNS)).
Proof.
  apply (bool_decide_unpack _). by vm_compute.
Qed.

Lemma init_db_existing (columns : list coldef) :
  init_db (Some columns)
  = if case_clashb OPTIONAL_COLUMNS (map fst columns) then OperationalError
    else Done (Some (columns ++ missing_columns OPTIONAL_COLUMNS (map fst columns))).
Proof.
  unfold init_db, ensure_columns. simpl create_table_if_not_exists.
  simpl table_info.
  destruct (case_clashb OPTIONAL_COLUMNS (map fst columns)) eqn:Hclash.
  - by apply add_missing_clash.
  - pose proof (add_missing_done columns OPTIONAL_COLUMNS []) as Hdone.
    rewrite app_nil_r in Hdone. apply Hdone; [|by intros c Hc%elem_of_nil|done].
    apply optional_keys_distinct.
Qed.



(** ** More runs on concrete requests *)

Section MoreSamples.
#[local] Existing Instance sample_externals.

Lemma store_insert_lookup_witness :
  fst (insert_user carol (of_string "h2")
         (snd (insert_user carol (of_string "h1") (sample_world None))))
    = Raised IntegrityError ∧
  fst (get_user alice (snd (insert_user carol (of_string "h1") (sample_world None))))
    = fst (get_user alice (sample_world None)).
Proof.
  destruct (store_insert_lookup carol (of_string "h1") (of_string "h2")
              [] [] [] [] [] (sample_world None))
    as (_ & _ & _ & _ & Hother & Hagain & _); [by vm_compute|].
  split; [exact Hagain | by apply Hother].
Defined.

Lemma register_fresh_username_witness :
  visible (register (of_string "salt") carol_register (sample_world None))
    = (Ok (Redirect ep_details),
       with_flash (sample_world None)
         "Account created. Add your details below." "success",
       <["username"%string := carol]> (session (sample_world None))) ∧
  select_user carol
    (table (snd (register (of_string "salt") carol_register (sample_world None))))
    = Some (new_row 2 carol (sample_hash (of_string "salt") (of_string "s3cret"))).
Proof.
  destruct (register_fresh_username (H := sample_externals) (of_string "salt")
              carol_register (sample_world None))
    as (Hvisible & _ & Hrow & _); [by vm_compute ..|].
  split; [exact Hvisible | exact Hrow].
Defined.

Lemma register_then_login_witness :
  login_accepts carol_register
    (snd (register (of_string "salt") carol_register (sample_world None))) ∧
  login_refuses carol_wrong_login
    (snd (register (of_string "salt") carol_register (sample_world None))).
Proof.
  destruct (register_then_login (H := sample_externals) (of_string "salt")
              carol_register carol_wrong_login (sample_world None))
    as [Haccept Hrefuse];
    [by vm_compute | by vm_compute | by vm_compute | by vm_compute
    | right; by eexists | by vm_compute |].
  split; [exact Haccept | apply Hrefuse; by vm_compute].
Defined.

Lemma blank_field_rejected_witness :
  visible (register (of_string "salt") blank_username_login (sample_world None))
    = (Ok (Render register_html),
       with_flash (sample_world None)
         "Username and password are required." "error",
       session (sample_world None)) ∧
  log (snd (login (post []) (sample_world None))) = [].
Proof.
  destruct (blank_field_rejected (H := sample_externals) (of_string "salt")
              blank_username_login (sample_world None))
    as [(Hregister & _) _]; [by vm_compute | left; by vm_compute|].
  destruct (blank_field_rejected (H := sample_externals) (of_string "salt")
              (post []) (sample_world None))
    as [_ (_ & Hlog & _)]; [by vm_compute | right; by vm_compute|].
  split; [exact Hregister | exact Hlog].
Defined.

Lemma login_required_witness :
  sent_to_login (sample_world None)
    (details (upload_of poem_file) (sample_world None)) ∧
  sent_to_login (sample_world None)
    (profile alice (upload_of poem_file) (sample_world None)) ∧
  sent_to_login (sample_world None) (download alice (sample_world None)).
Proof.
  apply (login_required (H := sample_externals)). by vm_compute.
Defined.

Lemma session_without_row_witness :
  visible (profile carol (upload_of poem_file) stale_world)
    = (Ok (Redirect ep_register),
       with_flash stale_world "Profile not found." "error", session stale_world) ∧
  fs (snd (profile carol (upload_of poem_file) stale_world)) = ∅.
Proof.
  destruct (session_without_row (H := sample_externals) carol
              (upload_of poem_file) stale_world)
    as [(Hvisible & _ & (_ & _ & Hfs)) _]; [by vm_compute ..|].
  split; [exact Hvisible | exact Hfs].
Defined.

Lemma download_own_file_witness :
  visible (download alice (sample_world (Some alice)))
    = (Ok (Redirect (ep_profile alice)),
       with_flash (sample_world (Some alice)) "No file available to download."
         "error",
       session (sample_world (Some alice))) ∧
  fst (download alice lost_file_world)
    = Ok (sample_send (of_string "/srv/app/uploads") (stored_name alice) ∅).
Proof.
  destruct (download_own_file (H := sample_externals) alice
              (sample_world (Some alice)) alice_row)
    as (_ & Hnone & _); [by vm_compute ..|].
  destruct (download_own_file (H := sample_externals) alice lost_file_world
              (set_file (stored_name alice) alice_row))
    as (Hsome & _ & _); [by vm_compute ..|].
  split.
  - by apply Hnone.
  - destruct Hsome as [Hvisible _]; [by vm_compute|].
    exact (f_equal (fun x => fst (fst x)) Hvisible).
Defined.

Lemma details_writes_own_row_witness :
  select_user alice
    (table (snd (details (details_form "  Alice " "   " "" "a@b.c")
                   (sample_world (Some alice)))))
    = Some (set_details (of_string "Alice") [] [] (of_string "a@b.c") alice_row).
Proof.
  destruct (details_writes_own_row alice
              (details_form "  Alice " "   " "" "a@b.c")
              (sample_world (Some alice)) alice_row)
    as (_ & Hrow & _); [by vm_compute ..|].
  exact Hrow.
Defined.

Lemma details_then_completeness_witness :
  ∃ word_count has_file,
    fst (profile alice get
           (snd (details (details_form "  Alice " "   " "" "a@b.c")
                   (sample_world (Some alice)))))
      = Ok (Render (profile_html
                      (set_details (of_string "Alice") [] [] (of_string "a@b.c")
                         alice_row)
                      word_count has_file 50)).
Proof.
  destruct (details_then_completeness (H := sample_externals) alice
              (details_form "  Alice " "   " "" "a@b.c") get
              (sample_world (Some alice)) alice_row)
    as (word_count & has_file & Hpage); [by vm_compute ..|].
  exists word_count, has_file. exact Hpage.
Defined.

Lemma upload_then_view_and_download_witness :
  fst (profile alice get
         (snd (profile alice (upload_of poem_file) (sample_world (Some alice)))))
    = Ok (Render (profile_html (set_file (stored_name alice) alice_row)
                    (Some 8%nat) true 25)).
Proof.
  destruct (upload_then_view_and_download (H := sample_externals) alice
              (upload_of poem_file) get (sample_world (Some alice)) alice_row
              poem_file)
    as (_ & Hpage & _); [by vm_compute ..|].
  exact Hpage.
Defined.

Lemma second_upload_replaces_first_witness :
  fs (snd (profile alice (upload_of second_file)
             (snd (profile alice (upload_of poem_file)
                     (sample_world (Some alice))))))
    !! destination (of_string "/srv/app/uploads") alice
    = Some (Readable second_poem).
Proof.
  destruct (second_upload_replaces_first (H := sample_externals) alice
              (upload_of poem_file) (upload_of second_file)
              (sample_world (Some alice)) alice_row poem_file second_file)
    as (Hat & _); [by vm_compute ..|].
  exact Hat.
Defined.

Lemma upload_touches_own_file_only_witness :
  destination (of_string "/srv/app/uploads") bob
    ≠ destination (of_string "/srv/app/uploads") alice ∧
  fs (snd (profile alice (upload_of poem_file) garbled_session))
    !! garbled_path
    = fs garbled_session !! garbled_path.
Proof.
  destruct (upload_touches_own_file_only (H := sample_externals) alice
              (upload_of poem_file) garbled_session alice_row poem_file)
    as (_ & Hother & _); [by vm_compute ..|].
  apply (Hother bob); by vm_compute.
Defined.

Lemma sample_world_unique : table_unique (sample_world None).
Proof. split; apply NoDup_singleton. Qed.

Lemma accounts_are_permanent_witness :
  map credentials (table (sample_world None))
    `prefix_of`
  map credentials
    (table (snd (details (details_form "  Alice " "   " "" "a@b.c")
                   (snd (register (of_string "salt") carol_register
                           (sample_world None)))))) ∧
  table_unique
    (snd (details (details_form "  Alice " "   " "" "a@b.c")
            (snd (register (of_string "salt") carol_register
                    (sample_world None))))).
Proof.
  destruct (accounts_are_permanent (H := sample_externals) (sample_world None)
              (snd (details (details_form "  Alice " "   " "" "a@b.c")
                      (snd (register (of_string "salt") carol_register
                              (sample_world None))))))
    as (Hprefix & Hunique & _).
  - eapply rtc_l; [apply served_register|]. apply rtc_once, served_details.
  - split; [exact Hprefix | exact (Hunique sample_world_unique)].
Defined.

Lemma reading_requests_write_nothing_witness :
  store_unchanged (sample_world None)
    (snd (login (alice_login "wonderland") (sample_world None))) ∧
  store_unchanged (sample_world (Some alice))
    (snd (profile alice get (sample_world (Some alice)))).
Proof.
  destruct (reading_requests_write_nothing (H := sample_externals) [] alice
              (alice_login "wonderland") (sample_world None))
    as (Hlogin & _).
  destruct (reading_requests_write_nothing (H := sample_externals) [] alice
              get (sample_world (Some alice)))
    as (_ & _ & _ & Hget).
  split; [exact Hlogin|].
  destruct (Hget eq_refl) as (_ & _ & _ & Hprofile & _). exact Hprofile.
Defined.

Lemma count_words_algebra_witness :
  count_words (of_string "There was" ++ 0x2003 :: of_string "an old man")
    = (count_words (of_string "There was") + count_words (of_string "an old man"))%nat ∧
  (2 * count_words (of_string "a b c") ≤ length (of_string "a b c") + 1)%nat.
Proof.
  destruct count_words_algebra as (_ & Hadd & Hbound).
  split; [by apply Hadd | apply Hbound].
Defined.

Lemma valid_file_counts_its_text_witness :
  fst (get_word_count (PyPath (destination (of_string "/srv/app/uploads") alice))
         (snd (profile alice (upload_of poem_file) (sample_world (Some alice)))))
    = Ok (Some (count_words (map Byte.to_N poem))).
Proof.
  destruct (valid_file_counts_its_text
              (PyPath (destination (of_string "/srv/app/uploads") alice))
              (snd (profile alice (upload_of poem_file) (sample_world (Some alice))))
              poem (map Byte.to_N poem))
    as [Hcount _]; [by vm_compute ..|].
  exact Hcount.
Defined.

Lemma old_catalog_no_clash : ¬ case_clash OPTIONAL_COLUMNS (table_info old_catalog).
Proof. intros Hclash. apply case_clash_reflect in Hclash. by vm_compute in Hclash. Qed.

Lemma clashing_catalog_clash :
  case_clash OPTIONAL_COLUMNS (table_info clashing_catalog).
Proof. apply case_clash_reflect. by vm_compute. Qed.


Lemma allowed_ascii_names_witness :
  allowed_file (of_string "archive.tar.TxT") = true.
Proof.
  apply (allowed_ascii_names (H := sample_externals) (of_string "archive.tar.TxT")
           sample_lower_on_ascii eq_refl).
  exists (of_string "archive.tar"), (of_string "TxT"). split; [done|].
  exists 84, 120, 84. repeat split; auto.
Defined.

Lemma missing_file_degrades_witness :
  fst (profile alice get lost_file_world)
    = Ok (Render (profile_html (set_file (stored_name alice) alice_row) None true 25)).
Proof.
  destruct (missing_file_degrades (H := sample_externals) alice get
              lost_file_world (set_file (stored_name alice) alice_row))
    as [Hpage _]; [by vm_compute | by vm_compute | by vm_compute | by vm_compute
                  | by vm_compute | left; by vm_compute |].
  exact Hpage.
Defined.


End MoreSamples.
